(** * frc.eventhub-deploy: attendance upsert, response summary, roster sync

    A shallow embedding of the parts of [main.py], [sync_users.py] and
    [reset_db.py] that carry invariants: the attendance upsert
    [create_or_update_response], the summary aggregation, person deletion,
    the roster reconciliation [sync_users] and the two operator entry points;
    then the other response handlers, event maintenance and the database
    reset with its seeding.

    Modelling conventions.
    - Python [int] is [Z]; [str] is [string]; [Optional[T]] is [option T];
      a [datetime] is a [Z] (microseconds since the epoch).
    - A table with an integer primary key that is only ever read by key
      ([user], [event], [eventtype]) is a [gmap Z] from the key to the
      remaining columns.  The [eventresponse] table is read by predicate
      with [.first()], so it is the list of its rows in scan order.  Where
      a keyed table is scanned, its rows come in key order ([rows_of]).
    - [session.get], [session.add], [session.delete] act on the row of the
      given key only; relationship attributes are navigation aids of the
      object mapper and are not columns.
    - [datetime.now(timezone.utc)] reads a clock: the n-th reading of a run
      is [clock n], and every call consumes one reading. *)

From Stdlib Require Import ZArith Lia Ascii.
From stdpp Require Import gmap strings list fin_maps sorting.

Local Open Scope Z_scope.

(** ** Models of [main.py] *)

Module User.
(** Columns of table [user] other than the primary key [id]. *)
Record cols := Cols { name : string; type : string; role : string; active : bool }.
(** A loaded [User] object. *)
Record t := Obj { id : Z; row : cols }.
End User.

Module Event.
Record cols := Cols {
  title : string; description : string;
  date : Z; start_time : Z * Z; duration_minutes : Z;
  event_type_id : option Z; location : option string; link : option string }.
End Event.

Module EventType.
Record cols := Cols { name : string; color : option string }.
End EventType.

Module EventResponse.
Record t := Row {
  id : Z; user_id : Z; event_id : Z;
  status : string; note : option string;
  created_at : Z; updated_at : Z }.
End EventResponse.

Module EventResponseCreate.
Record t := Body { user_id : Z; status : string; note : option string }.
End EventResponseCreate.

Global Instance user_cols_eq_dec : EqDecision User.cols.
Proof. solve_decision. Defined.
Global Instance response_eq_dec : EqDecision EventResponse.t.
Proof. solve_decision. Defined.

(** The database file [calendar.db]. *)
Record Store := MkStore {
  users : gmap Z User.cols;
  events : gmap Z Event.cols;
  event_types : gmap Z EventType.cols;
  responses : list EventResponse.t }.

Definition set_users (f : gmap Z User.cols → gmap Z User.cols) (st : Store) : Store :=
  MkStore (f (users st)) (events st) (event_types st) (responses st).
Definition set_responses (f : list EventResponse.t → list EventResponse.t) (st : Store) : Store :=
  MkStore (users st) (events st) (event_types st) (f (responses st)).

Definition empty_store : Store := MkStore ∅ ∅ ∅ [].

(** ** Request handlers: state, clock and [HTTPException] *)

Record HTTPException := Http { status_code : Z; detail : string }.

Inductive result (A : Type) : Type :=
| Ok (a : A)
| Raise (e : HTTPException).
Global Arguments Ok {A} a.
Global Arguments Raise {A} e.

(** What a handler runs against: the database and the number of clock
    readings taken so far. *)
Record World := MkWorld { db : Store; ticks : nat }.

Definition M (A : Type) : Type := World → result A * World.

Global Instance M_ret : MRet M := λ A a w, (Ok a, w).
Global Instance M_bind : MBind M := λ A B f m w,
  match m w with
  | (Ok a, w') => f a w'
  | (Raise e, w') => (Raise e, w')
  end.

Definition raise {A} (e : HTTPException) : M A := λ w, (Raise e, w).
Definition read {A} (f : Store → A) : M A := λ w, (Ok (f (db w)), w).
Definition write (f : Store → Store) : M unit :=
  λ w, (Ok tt, MkWorld (f (db w)) (ticks w)).

Section Handlers.
(** The wall clock behind [datetime.now(timezone.utc)]. *)
Variable clock : nat → Z.

Definition now : M Z := λ w, (Ok (clock (ticks w)), MkWorld (db w) (S (ticks w))).

(** [session.get(Event, k)] and [session.get(User, k)]. *)
Definition get_event (k : Z) : M (option Event.cols) := read (λ st, events st !! k).
Definition get_user (k : Z) : M (option User.t) :=
  read (λ st, User.Obj k <$> users st !! k).

(** The [where] clause of lines 163, 198. *)
Definition same_key (event_id user_id : Z) (r : EventResponse.t) : Prop :=
  EventResponse.event_id r = event_id ∧ EventResponse.user_id r = user_id.
Global Instance same_key_dec e u r : Decision (same_key e u r).
Proof. unfold same_key. apply _. Defined.

(** [session.exec(stmt).first()]: the first matching row in scan order,
    with its position. *)
Definition exec_first (event_id user_id : Z) : M (option (nat * EventResponse.t)) :=
  read (λ st, list_find (same_key event_id user_id) (responses st)).

(** Primary key handed out to a new [eventresponse] row. *)
Definition next_id (rows : list EventResponse.t) : Z :=
  1 + foldr (λ r acc, Z.max (EventResponse.id r) acc) 0 rows.

(** [session.add(resp); session.commit(); session.refresh(resp)] for a
    new object. *)
Definition insert_response (user_id event_id : Z) (status : string)
    (note : option string) (created_at updated_at : Z) : M EventResponse.t :=
  rows ← read responses;
  let resp := EventResponse.Row (next_id rows) user_id event_id status note
                created_at updated_at in
  _ ← write (set_responses (λ rows, rows ++ [resp]));
  mret resp.

(** The same three calls for the loaded object at position [i]. *)
Definition update_response (i : nat) (r : EventResponse.t) : M EventResponse.t :=
  _ ← write (set_responses (λ rows, <[i := r]> rows));
  mret r.

Definition valid_status (s : string) : bool :=
  bool_decide (s ∈ ["Yes"; "No"; "Maybe"]).

(** [main.py] lines 146-178. *)
Definition create_or_update_response (event_id : Z) (resp_in : EventResponseCreate.t)
    : M EventResponse.t :=
  event ← get_event event_id;
  if event is None then raise (Http 404 "Event not found") else
  user ← get_user (EventResponseCreate.user_id resp_in);
  if user is None then raise (Http 404 "User not found") else
  if negb (valid_status (EventResponseCreate.status resp_in))
  then raise (Http 400 "status must be 'Yes', 'No', or 'Maybe'") else
  existing ← exec_first event_id (EventResponseCreate.user_id resp_in);
  match existing with
  | Some (i, existing) =>
      t ← now;
      update_response i
        (EventResponse.Row (EventResponse.id existing)
           (EventResponse.user_id existing) (EventResponse.event_id existing)
           (EventResponseCreate.status resp_in) (EventResponseCreate.note resp_in)
           (EventResponse.created_at existing) t)
  | None =>
      t1 ← now;
      t2 ← now;
      insert_response (EventResponseCreate.user_id resp_in) event_id
        (EventResponseCreate.status resp_in) (EventResponseCreate.note resp_in) t1 t2
  end.

(** [main.py] lines 181-187. *)
Definition list_responses (event_id : Z) : M (list EventResponse.t) :=
  event ← get_event event_id;
  if event is None then raise (Http 404 "Event not found") else
  read (λ st, filter (λ r, EventResponse.event_id r = event_id) (responses st)).

(** [main.py] lines 190-205. *)
Definition delete_response (event_id user_id : Z) : M unit :=
  event ← get_event event_id;
  if event is None then raise (Http 404 "Event not found") else
  response ← exec_first event_id user_id;
  match response with
  | None => raise (Http 404 "Response not found")
  | Some (i, _) => write (set_responses (delete i))
  end.

(** The counting loop of lines 219-228, one response at a time. *)
Definition count_attending (us : gmap Z User.cols)
    (acc : nat * nat) (r : EventResponse.t) : nat * nat :=
  if decide (EventResponse.status r = "Yes") then
    match us !! EventResponse.user_id r with
    | Some user =>
        if decide (User.type user = "mentor") then (S acc.1, acc.2)
        else if decide (User.type user = "student") then (acc.1, S acc.2)
        else acc
    | None => acc
    end
  else acc.

Definition count_status (s : string) (rs : list EventResponse.t) : nat :=
  length (filter (λ r, EventResponse.status r = s) rs).

(** [main.py] lines 208-236; the returned dict as its items in order. *)
Definition responses_summary (event_id : Z) : M (list (string * nat)) :=
  event ← get_event event_id;
  if event is None then raise (Http 404 "Event not found") else
  rs ← read (λ st, filter (λ r, EventResponse.event_id r = event_id) (responses st));
  us ← read users;
  let '(mentor_count, student_count) := foldl (count_attending us) (0%nat, 0%nat) rs in
  mret [("yes", count_status "Yes" rs);
        ("no", count_status "No" rs);
        ("maybe", count_status "Maybe" rs);
        ("mentors_attending", mentor_count);
        ("students_attending", student_count)].

(** [main.py] lines 253-260. *)
Definition delete_user (user_id : Z) : M unit :=
  user ← get_user user_id;
  if user is None then raise (Http 404 "User not found") else
  write (set_users (delete user_id)).

End Handlers.

(** ** Models of [sync_users.py] *)

Module UserDict.
(** The per-user dict built by [load_csv_users] and [load_db_users]. *)
Record t := Dict {
  id : Z; name : string; type : string; role : string; active : bool }.
End UserDict.

Module Mismatch.
Record t := Entry { id : Z; csv_name : string; db_name : string }.
End Mismatch.

Global Instance user_dict_eq_dec : EqDecision UserDict.t.
Proof. solve_decision. Defined.
Global Instance mismatch_eq_dec : EqDecision Mismatch.t.
Proof. solve_decision. Defined.

Module CsvRow.
(** A row of [users.csv] after the [int(...)] conversions of lines 28 and
    34; a field that is not a number raises before the database is opened. *)
Record t := Fields {
  id : Z; user : string; type : string; role : string; active : Z }.
End CsvRow.

(** [str.strip()] on the ASCII range. *)
Definition is_space (c : ascii) : bool :=
  let n := nat_of_ascii c in bool_decide (9 ≤ n ≤ 13 ∨ 28 ≤ n ≤ 32)%nat.

Fixpoint lstrip (s : string) : string :=
  match s with
  | EmptyString => EmptyString
  | String c s' => if is_space c then lstrip s' else s
  end.

Fixpoint rstrip (s : string) : string :=
  match s with
  | EmptyString => EmptyString
  | String c s' =>
      match rstrip s' with
      | EmptyString => if is_space c then EmptyString else String c EmptyString
      | t => String c t
      end
  end.

Definition strip (s : string) : string := lstrip (rstrip s).

(** [sync_users.py] lines 22-36: later rows overwrite earlier ones with
    the same id. *)
Definition load_csv_users (rows : list CsvRow.t) : gmap Z UserDict.t :=
  foldl (λ users row,
           <[CsvRow.id row :=
               UserDict.Dict (CsvRow.id row) (strip (CsvRow.user row))
                 (CsvRow.type row) (CsvRow.role row)
                 (bool_decide (CsvRow.active row ≠ 0))]> users)
        ∅ rows.

(** [sync_users.py] lines 39-52. *)
Definition load_db_users (st : Store) : gmap Z UserDict.t :=
  map_imap (λ k u, Some (UserDict.Dict k (User.name u) (User.type u)
                           (User.role u) (User.active u))) (users st).

(** Python's [sorted] on a set of ints. *)
Definition sorted (s : gset Z) : list Z := merge_sort Z.le (elements s).

(** The validation loop, lines 87-97.  [user_id] ranges over keys of both
    dicts, so neither subscript can raise. *)
Definition check_name (csv_users db_users : gmap Z UserDict.t)
    (mismatches : list Mismatch.t) (user_id : Z) : list Mismatch.t :=
  match csv_users !! user_id, db_users !! user_id with
  | Some c, Some d =>
      let csv_name := UserDict.name c in
      let db_name := UserDict.name d in
      if decide (csv_name ≠ db_name)
      then mismatches ++ [Mismatch.Entry user_id csv_name db_name]
      else mismatches
  | _, _ => mismatches
  end.

(** The validation phase on two maps: lines 75 and 87-97. *)
Definition validate (csv_users db_users : gmap Z UserDict.t) : list Mismatch.t :=
  foldl (check_name csv_users db_users) []
        (sorted (dom csv_users ∩ dom db_users)).

(** What the session does to table [user], in program order. *)
Inductive Op :=
| OpDelete (k : Z)
| OpUpdate (k : Z)
| OpInsert (k : Z)
| OpCommit.

Global Instance op_eq_dec : EqDecision Op.
Proof. solve_decision. Defined.

(** A [Session]: the committed database, the session's own view of table
    [user] (committed rows plus pending changes), and the operations so
    far. *)
Record Session := MkSession {
  committed : Store;
  pending : gmap Z User.cols;
  oplog : list Op }.

Definition open_session (st : Store) : Session := MkSession st (users st) [].

Definition session_get (s : Session) (k : Z) : option User.t :=
  User.Obj k <$> pending s !! k.

Definition session_delete (s : Session) (k : Z) : Session :=
  MkSession (committed s) (delete k (pending s)) (oplog s ++ [OpDelete k]).

(** [session.add] of a loaded, modified object. *)
Definition session_add_dirty (s : Session) (u : User.t) : Session :=
  MkSession (committed s) (<[User.id u := User.row u]> (pending s))
            (oplog s ++ [OpUpdate (User.id u)]).

(** [session.add] of a new object.  [id] is the primary key: a second row
    with a key already in the table raises an integrity error, rendered as
    [None]. *)
Definition session_add_new (s : Session) (u : User.t) : option Session :=
  match pending s !! User.id u with
  | Some _ => None
  | None => Some (MkSession (committed s) (<[User.id u := User.row u]> (pending s))
                            (oplog s ++ [OpInsert (User.id u)]))
  end.

Definition session_commit (s : Session) : Session :=
  MkSession (set_users (λ _, pending s) (committed s)) (pending s)
            (oplog s ++ [OpCommit]).

(** Lines 119-123. *)
Definition delete_one (s : Session) (user_id : Z) : Session :=
  match session_get s user_id with
  | Some _ => session_delete s user_id
  | None => s
  end.

(** Lines 138-159: the four field comparisons, each assigning the CSV
    value and setting [changed]. *)
Definition apply_changes (db_user : User.cols) (csv_user : UserDict.t)
    : User.cols * bool :=
  let s0 := (db_user, false) in
  let s1 := if decide (User.name s0.1 ≠ UserDict.name csv_user)
            then (User.Cols (UserDict.name csv_user) (User.type s0.1)
                    (User.role s0.1) (User.active s0.1), true) else s0 in
  let s2 := if decide (User.type s1.1 ≠ UserDict.type csv_user)
            then (User.Cols (User.name s1.1) (UserDict.type csv_user)
                    (User.role s1.1) (User.active s1.1), true) else s1 in
  let s3 := if decide (User.role s2.1 ≠ UserDict.role csv_user)
            then (User.Cols (User.name s2.1) (User.type s2.1)
                    (UserDict.role csv_user) (User.active s2.1), true) else s2 in
  if decide (User.active s3.1 ≠ UserDict.active csv_user)
  then (User.Cols (User.name s3.1) (User.type s3.1)
          (User.role s3.1) (UserDict.active csv_user), true) else s3.

(** Loop state of lines 128-176: session, [updates_count], [inserts_count]. *)
Record Counts := MkCounts { sess : Session; updates_count : nat; inserts_count : nat }.

(** One iteration of the loop at lines 132-176.  [user_id] is a key of
    [csv_users], so the subscript cannot raise. *)
Definition sync_one (csv_users : gmap Z UserDict.t) (c : Counts) (user_id : Z)
    : option Counts :=
  match csv_users !! user_id with
  | None => Some c
  | Some csv_user =>
      match session_get (sess c) user_id with
      | Some db_user =>
          let '(row, changed) := apply_changes (User.row db_user) csv_user in
          if changed
          then Some (MkCounts (session_add_dirty (sess c) (User.Obj (User.id db_user) row))
                              (S (updates_count c)) (inserts_count c))
          else Some c
      | None =>
          let new_user := User.Obj (UserDict.id csv_user)
                            (User.Cols (UserDict.name csv_user) (UserDict.type csv_user)
                               (UserDict.role csv_user) (UserDict.active csv_user)) in
          s ← session_add_new (sess c) new_user;
          Some (MkCounts s (updates_count c) (S (inserts_count c)))
      end
  end.

Fixpoint for_each {S K} (body : S → K → option S) (ks : list K) (s : S) : option S :=
  match ks with
  | [] => Some s
  | k :: ks => s' ← body s k; for_each body ks s'
  end.

(** What the run reports. *)
Record Summary := MkSummary { deleted : nat; updated : nat; inserted : nat; no_op : bool }.

Inductive SyncExit :=
| Exit1 (mismatches : list Mismatch.t)   (* [sys.exit(1)] at line 108 *)
| IntegrityError                          (* uncaught exception of the store *)
| Returned (summary : Summary).           (* [return True] at line 188 *)

(** [sync_users.py] lines 67-188, from the loaded CSV dict on: the way the
    run ends, the database afterwards, and the session's operations. *)
Definition sync_users (csv_users : gmap Z UserDict.t) (st : Store)
    : SyncExit * Store * list Op :=
  let db_users := load_db_users st in
  let csv_ids := dom csv_users in
  let db_ids := dom db_users in
  let common_ids := csv_ids ∩ db_ids in
  let csv_only := csv_ids ∖ db_ids in
  let db_only := db_ids ∖ csv_ids in
  let mismatches :=
    foldl (check_name csv_users db_users) [] (sorted common_ids) in
  if mismatches is _ :: _ then (Exit1 mismatches, st, []) else
  let s := open_session st in
  let s := if decide (db_only ≠ ∅)
           then session_commit (foldl delete_one s (sorted db_only)) else s in
  match for_each (sync_one csv_users) (sorted csv_ids) (MkCounts s 0 0) with
  | None => (IntegrityError, committed s, oplog s)
  | Some c =>
      let s' := session_commit (sess c) in
      (Returned (MkSummary (size db_only) (updates_count c) (inserts_count c)
                   (bool_decide (updates_count c = 0 ∧ inserts_count c = 0
                                 ∧ size db_only = 0))%nat),
       committed s', oplog s')
  end.

(** ** The operator entry points of [sync_users.py] and [reset_db.py] *)

(** What a script can see and touch: the database file (absent before the
    first run), its backup copies by timestamp suffix, and the CSV files by
    path, each already read into the dict [load_csv_users] returns. *)
Record Disk := MkDisk {
  db_file : option Store;
  backups : gmap Z Store;
  csv_files : gmap string (gmap Z UserDict.t) }.

(** Observable steps of a script run, in program order. *)
Inductive Effect :=
| EffPrompt (message : string)   (* [input(message)] *)
| EffBackup (ts : Z)             (* [shutil.copy(db_path, bak)] *)
| EffUnlink                      (* [db_path.unlink()] *)
| EffCreateAll                   (* [SQLModel.metadata.create_all(engine)] *)
| EffSession (op : Op).          (* a session operation on table [user] *)



(** [str.lower] on the ASCII range and [str.startswith]. *)
Definition lower_ascii (c : ascii) : ascii :=
  let n := nat_of_ascii c in
  if bool_decide (65 ≤ n ≤ 90)%nat then ascii_of_nat (n + 32) else c.

Fixpoint lower (s : string) : string :=
  match s with
  | EmptyString => EmptyString
  | String c s => String (lower_ascii c) (lower s)
  end.

Definition startswith (s p : string) : bool := String.prefix p s.

(** [reset_db.py] lines 13-17. *)
Definition backup_db (ts : Z) (st : Store) (d : Disk) : Disk :=
  MkDisk (db_file d) (<[ts := st]> (backups d)) (csv_files d).

(** Next integer primary key of a keyed table. *)
Definition next_key {V} (tbl : gmap Z V) : Z :=
  1 + foldr Z.max 0 (elements (dom tbl)).

Definition default_types : list (string * string) :=
  [("Competition", "#e74c3c"); ("Training", "#3498db"); ("Meeting", "#2ecc71");
   ("Outreach", "#f1c40f"); ("Other", "#95a5a6")].

(** The first [eventtype] row with the given name, lines 43 and 76. *)
Definition type_named (name : string) (tbl : gmap Z EventType.cols) : option Z :=
  let rows : list (Z * EventType.cols) :=
    omap (λ k, pair k <$> tbl !! k) (merge_sort Z.le (elements (dom tbl))) in
  (λ hit : nat * (Z * EventType.cols), hit.2.1)
    <$> list_find (λ kv : Z * EventType.cols, EventType.name kv.2 = name) rows.

(** Lines 42-45. *)
Definition seed_type (tbl : gmap Z EventType.cols) (nc : string * string)
    : gmap Z EventType.cols :=
  match type_named nc.1 tbl with
  | Some _ => tbl
  | None => <[next_key tbl := EventType.Cols nc.1 (Some nc.2)]> tbl
  end.

(** The two sample events of lines 51-72: title, description, day offset
    from today, start time, minutes, link, type name, location. *)
Definition sample_events
    : list (string * string * Z * (Z * Z) * Z * string * string * string) :=
  [("FLL Coaches Meeting", "__All coaches are encouraged to attend__",
    0, (15, 0), 60, "https://example.com/team-sync", "Meeting",
    "Shop - Conference Room");
   ("Outreach Event - Bolton Library",
    "Please be at the Library early to setup.  If any there are any questions please reach out to Michelle.",
    2, (9, 0), 120, "https://example.com/onboarding", "Outreach",
    "738 Main St, Bolton, MA 01740")].

(** Lines 75-91. *)
Definition seed_event (today : Z) (st : Store)
    (s : string * string * Z * (Z * Z) * Z * string * string * string) : Store :=
  let '(title, description, offset, start_time, minutes, link, type, location) := s in
  match type_named type (event_types st) with
  | None => st
  | Some et =>
      MkStore (users st)
        (<[next_key (events st) :=
             Event.Cols title description (today + offset) start_time minutes
               (Some et) (Some location) (Some link)]> (events st))
        (event_types st) (responses st)
  end.

(** [reset_db.py] lines 20-93.  [ts] is the clock reading that names the
    backup, [today] is [date.today()]. *)
Definition reset_database (argv : list string) (ts today : Z) (d : Disk)
    : Disk * list Effect :=
  let '(d, eff) :=
    match db_file d with
    | Some st =>
        (MkDisk None (backups (backup_db ts st d)) (csv_files d), [EffBackup ts; EffUnlink])
    | None => (d, [])
    end in
  let st := empty_store in
  let st := MkStore (users st) (events st)
              (foldl seed_type (event_types st) default_types) (responses st) in
  let st := match argv with
            | _ :: flag :: _ =>
                if bool_decide (flag ∈ ["--sample"; "-s"])
                then foldl (seed_event today) st sample_events else st
            | _ => st
            end in
  (MkDisk (Some st) (backups d) (csv_files d), eff ++ [EffCreateAll]).

Definition reset_prompt : string :=
  "This will backup and recreate ./calendar.db. Continue? [y/N]: ".

(** [reset_db.py] lines 96-106. *)
Definition reset_main (argv : list string) (stdin : string) (ts today : Z) (d : Disk)
    : Disk * list Effect :=
  let '(confirm, eff) :=
    match argv with
    | _ :: flag :: _ =>
        if bool_decide (flag ∈ ["-y"; "--yes"]) then ("y", [])
        else (stdin, [EffPrompt reset_prompt])
    | _ => (stdin, [EffPrompt reset_prompt])
    end in
  if startswith (lower confirm) "y"
  then let '(d', eff') := reset_database argv ts today d in (d', eff ++ eff')
  else (d, eff).

(** ** Specification vocabulary *)

(** The command line carries the force flag of [reset_db.py]. *)
Definition forced (argv : list string) : bool :=
  match argv !! 1%nat with
  | Some flag => bool_decide (flag ∈ ["-y"; "--yes"])
  | None => false
  end.

Definition reset_confirms (argv : list string) (stdin : string) : bool :=
  forced argv || startswith (lower stdin) "y".

Definition key_of (r : EventResponse.t) : Z * Z :=
  (EventResponse.event_id r, EventResponse.user_id r).

(** At most one row per (event_id, user_id) pair. *)
Definition unique_pairs (rows : list EventResponse.t) : Prop :=
  NoDup (key_of <$> rows).

(** One sequential operation on the database: a request handled by
    [main.py], a run of [sync_users], or any other operation that leaves
    table [eventresponse] alone (user and event maintenance). *)
Inductive step (clock : nat → Z) : Store → Store → Prop :=
| step_upsert event_id resp_in st n out w' :
    create_or_update_response clock event_id resp_in (MkWorld st n) = (out, w') →
    step clock st (db w')
| step_delete_response event_id user_id st n out w' :
    delete_response event_id user_id (MkWorld st n) = (out, w') →
    step clock st (db w')
| step_delete_user user_id st n out w' :
    delete_user user_id (MkWorld st n) = (out, w') →
    step clock st (db w')
| step_sync csv_users st :
    step clock st (sync_users csv_users st).1.2
| step_crud st st' :
    responses st' = responses st → step clock st st'.

(** The databases that sequential operation produces from the fresh schema
    of [on_startup]. *)
Definition reachable (clock : nat → Z) (st : Store) : Prop :=
  rtc (step clock) empty_store st.

(** A [Yes] response of a person who exists and has the given category. *)
Definition attending (us : gmap Z User.cols) (category : string)
    (r : EventResponse.t) : Prop :=
  EventResponse.status r = "Yes" ∧
  User.type <$> us !! EventResponse.user_id r = Some category.
Global Instance attending_dec us c r : Decision (attending us c r).
Proof. unfold attending. apply _. Defined.

Definition responses_of (event_id : Z) (st : Store) : list EventResponse.t :=
  filter (λ r, EventResponse.event_id r = event_id) (responses st).

(** Every dict of the map carries its own key as ['id'], as
    [load_csv_users] builds it (lines 28-30). *)
Definition keyed (csv_users : gmap Z UserDict.t) : Prop :=
  map_Forall (λ k u, UserDict.id u = k) csv_users.

(** The row a CSV dict stands for. *)
Definition cols_of (u : UserDict.t) : User.cols :=
  User.Cols (UserDict.name u) (UserDict.type u) (UserDict.role u) (UserDict.active u).

(** Mutations come as deletes, then updates, then inserts. *)
Definition phase (o : Op) : option nat :=
  match o with
  | OpDelete _ => Some 0%nat
  | OpUpdate _ => Some 1%nat
  | OpInsert _ => Some 2%nat
  | OpCommit => None
  end.


(** At least one of name, type, role, active of the persisted row differs
    from the CSV dict. *)
Definition field_differs (row : User.cols) (c : UserDict.t) : Prop :=
  User.name row ≠ UserDict.name c ∨ User.type row ≠ UserDict.type c
  ∨ User.role row ≠ UserDict.role c ∨ User.active row ≠ UserDict.active c.
Global Instance field_differs_dec row c : Decision (field_differs row c).
Proof. unfold field_differs. apply _. Defined.

(** What reconciliation owes key [k], given the persisted table: an insert
    for a key only in the CSV, an update for a common key with a differing
    field, nothing otherwise. *)
Definition planned (csv_users : gmap Z UserDict.t) (tbl : gmap Z User.cols)
    (k : Z) : list Op :=
  match csv_users !! k with
  | None => []
  | Some c =>
      match tbl !! k with
      | Some row => if decide (field_differs row c) then [OpUpdate k] else []
      | None => [OpInsert k]
      end
  end.

Definition count_phase (n : nat) (ops : list Op) : nat :=
  length (filter (λ o, phase o = Some n) ops).

(** Key [k] is in both maps under different names, and [m] records it. *)
Definition mismatch_at (csv_users db_users : gmap Z UserDict.t)
    (k : Z) (m : Mismatch.t) : Prop :=
  ∃ c d, csv_users !! k = Some c ∧ db_users !! k = Some d
         ∧ UserDict.name c ≠ UserDict.name d
         ∧ m = Mismatch.Entry k (UserDict.name c) (UserDict.name d).

(** The delete phase in the log: the deletes in ascending key order and
    their commit, or nothing when no key is only in the database. *)
Definition delete_ops (db_only : gset Z) : list Op :=
  if decide (db_only ≠ ∅) then (OpDelete <$> sorted db_only) ++ [OpCommit] else [].

(** Everything but table [user] is as it was. *)
Definition same_but_users (st st' : Store) : Prop :=
  events st' = events st ∧ event_types st' = event_types st
  ∧ responses st' = responses st.

(** ** Fixtures *)

(** A clock that advances by one microsecond per reading. *)
Definition ticking (n : nat) : Z := 100 + Z.of_nat n.

Definition club_db : Store :=
  MkStore {[1 := User.Cols "Ann" "mentor" "coach" true;
            2 := User.Cols "Bo" "student" "driver" true;
            4 := User.Cols "Di" "other" "parent" true]}
          {[7 := Event.Cols "Kickoff" "Season kickoff" 739000 (15, 0) 60 None None None]}
          ∅ [].

Definition roster_db : Store :=
  MkStore {[2 := User.Cols "B" "student" "driver" true;
            3 := User.Cols "C" "student" "scout" true]} ∅ ∅
          [EventResponse.Row 1 3 7 "Yes" None 10 10].

Definition roster_csv : gmap Z UserDict.t :=
  {[1 := UserDict.Dict 1 "A" "mentor" "coach" true;
    2 := UserDict.Dict 2 "B" "student" "captain" true]}.

Definition roster_disk : Disk :=
  MkDisk (Some roster_db) ∅ {["./users.csv" := roster_csv]}.

(** ** More of [main.py]: event maintenance *)

Module EventCreate.
(** The request body of [create_event] and [update_event], as the
    framework hands it to the handler: each field already has its declared
    type or is [None], so the conversions of lines 270-287 and 361-378 find
    nothing to convert. *)
Record t := Body {
  title : string; description : string;
  date : option Z; start_time : option (Z * Z); duration_minutes : option Z;
  event_type_id : option Z; event_type : option string;
  location : option string; link : option string }.
End EventCreate.

Module EventRead.
Record t := View {
  id : Z; title : string; description : string;
  date : Z; start_time : Z * Z; duration_minutes : Z;
  event_type_id : option Z;
  event_type_name : option string; event_type_color : option string;
  location : option string; link : option string }.
End EventRead.

(** The rows of a keyed table in scan order, as [select(...).all()] yields
    them. *)
Definition rows_of {V} (tbl : gmap Z V) : list (Z * V) :=
  omap (λ k, pair k <$> tbl !! k) (merge_sort Z.le (elements (dom tbl))).

(** Lines 265-290 and 357-381: the three required fields and the positive
    duration. *)
Definition check_schedule (event_in : EventCreate.t) : M (Z * (Z * Z) * Z) :=
  match EventCreate.date event_in, EventCreate.start_time event_in,
        EventCreate.duration_minutes event_in with
  | Some date, Some start_time, Some duration_minutes =>
      if decide (duration_minutes ≤ 0)
      then raise (Http 400 "`duration_minutes` must be a positive integer")
      else mret (date, start_time, duration_minutes)
  | _, _, _ =>
      raise (Http 400 "`date`, `start_time`, and `duration_minutes` are required")
  end.

(** Lines 292-305 and 383-396: the event type by id, else by a non-empty
    name, else none. *)
Definition resolve_type (event_in : EventCreate.t) : M (option Z) :=
  match EventCreate.event_type_id event_in with
  | Some i =>
      et ← read (λ st, event_types st !! i);
      if et is None then raise (Http 400 "event_type_id not found")
      else mret (Some i)
  | None =>
      match EventCreate.event_type event_in with
      | Some name =>
          if decide (name = "") then mret None else
          et ← read (λ st, type_named name (event_types st));
          match et with
          | None => raise (Http 400 "event_type not found; create it via /event-types first")
          | Some k => mret (Some k)
          end
      | None => mret None
      end
  end.

(** Lines 312-319, 327-333 and 412-418: the response model of an event.
    The type is looked up only for a type id that is not [None] and not 0. *)
Definition event_read (types : gmap Z EventType.cols) (k : Z) (ev : Event.cols)
    : EventRead.t :=
  let et := match Event.event_type_id ev with
            | Some t => if decide (t = 0) then None else types !! t
            | None => None
            end in
  EventRead.View k (Event.title ev) (Event.description ev) (Event.date ev)
    (Event.start_time ev) (Event.duration_minutes ev) (Event.event_type_id ev)
    (EventType.name <$> et) (et ≫= EventType.color)
    (Event.location ev) (Event.link ev).

(** The row a checked body stands for. *)
Definition event_of (event_in : EventCreate.t) (date : Z) (start_time : Z * Z)
    (duration_minutes : Z) (et_id : option Z) : Event.cols :=
  Event.Cols (EventCreate.title event_in) (EventCreate.description event_in)
    date start_time duration_minutes et_id
    (EventCreate.location event_in) (EventCreate.link event_in).

Definition set_events (f : gmap Z Event.cols → gmap Z Event.cols) (st : Store) : Store :=
  MkStore (users st) (f (events st)) (event_types st) (responses st).

(** [main.py] lines 263-319. *)
Definition create_event (event_in : EventCreate.t) : M EventRead.t :=
  '(date, start_time, duration_minutes) ← check_schedule event_in;
  et_id ← resolve_type event_in;
  let event := event_of event_in date start_time duration_minutes et_id in
  k ← read (λ st, next_key (events st));
  _ ← write (set_events (insert k event));
  read (λ st, event_read (event_types st) k event).

(** [main.py] lines 322-334. *)
Definition list_events : M (list EventRead.t) :=
  read (λ st, (λ kv, event_read (event_types st) kv.1 kv.2) <$> rows_of (events st)).

(** [main.py] lines 337-344. *)
Definition delete_event (event_id : Z) : M unit :=
  event ← get_event event_id;
  if event is None then raise (Http 404 "Event not found") else
  write (set_events (delete event_id)).

(** [main.py] lines 347-418. *)
Definition update_event (event_id : Z) (event_in : EventCreate.t) : M EventRead.t :=
  event ← get_event event_id;
  if event is None then raise (Http 404 "Event not found") else
  '(date, start_time, duration_minutes) ← check_schedule event_in;
  et_id ← resolve_type event_in;
  let event := event_of event_in date start_time duration_minutes et_id in
  _ ← write (set_events (insert event_id event));
  read (λ st, event_read (event_types st) event_id event).

(** [main.py] lines 421-423 and 247-250. *)
Definition list_event_types : M (list (Z * EventType.cols)) :=
  read (λ st, rows_of (event_types st)).
Definition list_users : M (list User.t) :=
  read (λ st, (λ kv, User.Obj kv.1 kv.2) <$> rows_of (users st)).

(** ** More vocabulary *)

(** Every response has one of the three statuses and a positive id, and
    no two responses share an id. *)
Definition rows_keyed (rows : list EventResponse.t) : Prop :=
  Forall (λ r, EventResponse.status r ∈ ["Yes"; "No"; "Maybe"]
               ∧ 0 < EventResponse.id r) rows
  ∧ NoDup (EventResponse.id <$> rows).

(** No response was updated before it was created, or after the latest
    clock reading. *)
Definition stamped (clock : nat → Z) (w : World) : Prop :=
  Forall (λ r, EventResponse.created_at r ≤ EventResponse.updated_at r
               ∧ ∀ n, (ticks w ≤ n)%nat → EventResponse.updated_at r ≤ clock n)
         (responses (db w)).

(** One request served on the world left by the one before: the clock
    readings are never handed out twice. *)
Inductive serve (clock : nat → Z) : World → World → Prop :=
| serve_upsert event_id resp_in w out w' :
    create_or_update_response clock event_id resp_in w = (out, w') →
    serve clock w w'
| serve_delete_response event_id user_id w out w' :
    delete_response event_id user_id w = (out, w') →
    serve clock w w'
| serve_other w w' :
    responses (db w') = responses (db w) → (ticks w ≤ ticks w')%nat →
    serve clock w w'.

(** Every event lasts a positive number of minutes and names an event type
    that exists, if it names one. *)
Definition events_well_formed (st : Store) : Prop :=
  map_Forall (λ _ ev, 0 < Event.duration_minutes ev
                      ∧ ∀ t, Event.event_type_id ev = Some t →
                             is_Some (event_types st !! t)) (events st).

(** One operation as far as events are concerned: an event request, or
    anything that leaves the events alone and drops no event type. *)
Inductive event_step : Store → Store → Prop :=
| event_step_create event_in w out w' :
    create_event event_in w = (out, w') → event_step (db w) (db w')
| event_step_update event_id event_in w out w' :
    update_event event_id event_in w = (out, w') → event_step (db w) (db w')
| event_step_delete event_id w out w' :
    delete_event event_id w = (out, w') → event_step (db w) (db w')
| event_step_other st st' :
    events st' = events st → event_types st ⊆ event_types st' →
    event_step st st'.




(** The dict [load_csv_users] builds from one row. *)
Definition row_dict (row : CsvRow.t) : UserDict.t :=
  UserDict.Dict (CsvRow.id row) (strip (CsvRow.user row))
    (CsvRow.type row) (CsvRow.role row) (bool_decide (CsvRow.active row ≠ 0)).

(** The database a reset builds: the default event types, and the sample
    events when the first argument asks for them. *)
Definition seeded (argv : list string) (today : Z) : Store :=
  let st := MkStore ∅ ∅ (foldl seed_type ∅ default_types) [] in
  match argv with
  | _ :: flag :: _ =>
      if bool_decide (flag ∈ ["--sample"; "-s"])
      then foldl (seed_event today) st sample_events else st
  | _ => st
  end.

(** A body [create_event] and [update_event] accept against the given
    event types. *)
Definition event_body_ok (types : gmap Z EventType.cols) (event_in : EventCreate.t)
    : Prop :=
  is_Some (EventCreate.date event_in) ∧ is_Some (EventCreate.start_time event_in)
  ∧ (∃ m, EventCreate.duration_minutes event_in = Some m ∧ 0 < m)
  ∧ match EventCreate.event_type_id event_in, EventCreate.event_type event_in with
    | Some i, _ => is_Some (types !! i)
    | None, Some name => name = "" ∨ is_Some (type_named name types)
    | None, None => True
    end.

(** The type the checks settle on. *)
Definition settled_type (types : gmap Z EventType.cols) (event_in : EventCreate.t)
    : option Z :=
  match EventCreate.event_type_id event_in with
  | Some i => Some i
  | None =>
      match EventCreate.event_type event_in with
      | Some name => if decide (name = "") then None else type_named name types
      | None => None
      end
  end.

Definition outreach_day : EventCreate.t :=
  EventCreate.Body "Library day" "Bring the robot" (Some 739010) (Some (9, 30)) (Some 120)
    None (Some "Outreach") (Some "Bolton") None.

(** No response belongs to a user that a run of [sync_users] on this CSV
    dict deletes: the deletes then involve table [user] only. *)
Definition leavers_unanswered (csv_users : gmap Z UserDict.t) (st : Store) : Prop :=
  Forall (λ r, EventResponse.user_id r ∉ dom (users st) ∖ dom csv_users)
         (responses st).

(** * Proofs *)

(** ** Running a handler *)

Lemma bind_ok {A B} (m : M A) (f : A → M B) w a w' :
  m w = (Ok a, w') → (m ≫= f) w = f a w'.
Proof. intros H. unfold mbind, M_bind. by rewrite H. Qed.

Lemma get_event_run k w : get_event k w = (Ok (events (db w) !! k), w).
Proof. reflexivity. Qed.
Lemma get_user_run k w : get_user k w = (Ok (User.Obj k <$> users (db w) !! k), w).
Proof. reflexivity. Qed.
Lemma exec_first_run e u w :
  exec_first e u w = (Ok (list_find (same_key e u) (responses (db w))), w).
Proof. reflexivity. Qed.

Ltac run_guard :=
  first [ rewrite (bind_ok _ _ _ _ _ (get_event_run _ _))
        | rewrite (bind_ok _ _ _ _ _ (get_user_run _ _))
        | rewrite (bind_ok _ _ _ _ _ (exec_first_run _ _ _)) ].

Section upsert.
Variable clock : nat → Z.

(** Past the three guards the handler is the read-then-write tail. *)
Lemma upsert_guards_pass event_id resp_in w :
  is_Some (events (db w) !! event_id) →
  is_Some (users (db w) !! EventResponseCreate.user_id resp_in) →
  EventResponseCreate.status resp_in ∈ ["Yes"; "No"; "Maybe"] →
  create_or_update_response clock event_id resp_in w =
  match list_find (same_key event_id (EventResponseCreate.user_id resp_in))
          (responses (db w)) with
  | Some (i, existing) =>
      let row := EventResponse.Row (EventResponse.id existing)
           (EventResponse.user_id existing) (EventResponse.event_id existing)
           (EventResponseCreate.status resp_in) (EventResponseCreate.note resp_in)
           (EventResponse.created_at existing) (clock (ticks w)) in
      (Ok row, MkWorld (set_responses (λ rows, <[i := row]> rows) (db w)) (S (ticks w)))
  | None =>
      let row := EventResponse.Row (next_id (responses (db w)))
           (EventResponseCreate.user_id resp_in) event_id
           (EventResponseCreate.status resp_in) (EventResponseCreate.note resp_in)
           (clock (ticks w)) (clock (S (ticks w))) in
      (Ok row, MkWorld (set_responses (λ rows, rows ++ [row]) (db w)) (S (S (ticks w))))
  end.
Proof.
  intros [ev Hev] [u Hu] Hs. unfold create_or_update_response.
  run_guard. rewrite Hev. run_guard. rewrite Hu. simpl.
  unfold valid_status. rewrite bool_decide_eq_true_2 by done. simpl.
  run_guard. destruct (list_find _ _) as [[i existing]|]; reflexivity.
Qed.

Lemma upsert_raise_inv event_id resp_in w e w' :
  create_or_update_response clock event_id resp_in w = (Raise e, w') → w' = w.
Proof.
  unfold create_or_update_response. run_guard.
  destruct (events (db w) !! event_id) as [ev|]; [|by inversion 1].
  run_guard.
  destruct (users (db w) !! _) as [u|]; simpl; [|by inversion 1].
  destruct (valid_status _); simpl; [|by inversion 1].
  run_guard. destruct (list_find _ _) as [[i existing]|]; inversion 1.
Qed.

Lemma upsert_ok_inv event_id resp_in w r w' :
  create_or_update_response clock event_id resp_in w = (Ok r, w') →
  is_Some (events (db w) !! event_id) ∧
  is_Some (users (db w) !! EventResponseCreate.user_id resp_in) ∧
  EventResponseCreate.status resp_in ∈ ["Yes"; "No"; "Maybe"].
Proof.
  unfold create_or_update_response. run_guard.
  destruct (events (db w) !! event_id) as [ev|]; [|by inversion 1].
  run_guard.
  destruct (users (db w) !! _) as [u|]; simpl; [|by inversion 1].
  unfold valid_status. case_bool_decide; simpl; [|by inversion 1].
  eauto.
Qed.

(** C1, amended.  When the event exists, the person exists and the status
    is Yes, No or Maybe, the upsert succeeds and touches table
    [eventresponse] only.  If a row for (event_id, user_id) exists, the
    first such row is overwritten in place: status and note are the
    request's, updated_at is the clock reading of the call, id and
    created_at are unchanged, and the updated row is returned.  Otherwise a
    new row is appended and returned, with the request's status and note,
    created_at the first clock reading of the call and updated_at the
    second one. *)
Theorem upsert_overwrites_or_creates event_id resp_in w :
  is_Some (events (db w) !! event_id) →
  is_Some (users (db w) !! EventResponseCreate.user_id resp_in) →
  EventResponseCreate.status resp_in ∈ ["Yes"; "No"; "Maybe"] →
  ∃ row w',
    create_or_update_response clock event_id resp_in w = (Ok row, w')
    ∧ users (db w') = users (db w) ∧ events (db w') = events (db w)
    ∧ EventResponse.event_id row = event_id
    ∧ EventResponse.user_id row = EventResponseCreate.user_id resp_in
    ∧ EventResponse.status row = EventResponseCreate.status resp_in
    ∧ EventResponse.note row = EventResponseCreate.note resp_in
    ∧ match list_find (same_key event_id (EventResponseCreate.user_id resp_in))
              (responses (db w)) with
      | Some (i, existing) =>
          responses (db w') = <[i := row]> (responses (db w))
          ∧ EventResponse.id row = EventResponse.id existing
          ∧ EventResponse.created_at row = EventResponse.created_at existing
          ∧ EventResponse.updated_at row = clock (ticks w)
      | None =>
          responses (db w') = responses (db w) ++ [row]
          ∧ EventResponse.created_at row = clock (ticks w)
          ∧ EventResponse.updated_at row = clock (S (ticks w))
      end.
Proof.
  intros Hev Hu Hs. rewrite (upsert_guards_pass _ _ _ Hev Hu Hs).
  destruct (list_find _ _) as [[i existing]|] eqn:Hfind.
  - apply list_find_Some in Hfind as (_ & [He Hk] & _).
    eexists _, _. split; [reflexivity|]. simpl. by rewrite He, Hk.
  - eexists _, _. split; [reflexivity|]. by simpl.
Qed.

(** C6.  A request whose event is missing fails with 404 "Event not found";
    one whose event exists but whose person is missing fails with 404
    "User not found"; one whose event and person exist but whose status is
    not Yes, No or Maybe fails with 400.  In each case the handler returns
    the world it was given: no row is created or modified and the clock is
    not read. *)
Theorem upsert_rejects_before_write event_id resp_in w :
  events (db w) !! event_id = None
  ∨ users (db w) !! EventResponseCreate.user_id resp_in = None
  ∨ EventResponseCreate.status resp_in ∉ ["Yes"; "No"; "Maybe"] →
  ∃ e, create_or_update_response clock event_id resp_in w = (Raise e, w)
    ∧ e = if events (db w) !! event_id is None
          then Http 404 "Event not found"
          else if users (db w) !! EventResponseCreate.user_id resp_in is None
          then Http 404 "User not found"
          else Http 400 "status must be 'Yes', 'No', or 'Maybe'".
Proof.
  intros Hbad. unfold create_or_update_response. run_guard.
  destruct (events (db w) !! event_id) as [ev|]; [|by eexists].
  run_guard.
  destruct (users (db w) !! _) as [u|]; simpl; [|by eexists].
  unfold valid_status. rewrite bool_decide_eq_false_2; [by eexists|].
  by destruct Hbad as [?|[?|?]].
Qed.
End upsert.

(** *** The pair invariant *)

Lemma find_same_key_None e u rows :
  list_find (same_key e u) rows = None → (e, u) ∉ key_of <$> rows.
Proof.
  rewrite list_find_None, Forall_forall. intros H (r & Hk & Hr)%list_elem_of_fmap.
  apply (H r Hr). unfold key_of in Hk. by simplify_eq.
Qed.

Lemma unique_pairs_overwrite rows i old new :
  rows !! i = Some old → key_of new = key_of old →
  unique_pairs rows → unique_pairs (<[i := new]> rows).
Proof.
  intros Hi Hk. unfold unique_pairs. rewrite list_fmap_insert, Hk.
  rewrite list_insert_id; [done|]. by rewrite list_lookup_fmap, Hi.
Qed.

Lemma unique_pairs_append rows new :
  key_of new ∉ key_of <$> rows → unique_pairs rows → unique_pairs (rows ++ [new]).
Proof.
  intros Hk H. unfold unique_pairs. rewrite fmap_app. apply NoDup_app.
  split_and!; [done| |apply NoDup_singleton].
  intros k Hin ->%list_elem_of_singleton. done.
Qed.

Lemma unique_pairs_delete rows i :
  unique_pairs rows → unique_pairs (delete i rows).
Proof.
  unfold unique_pairs. rewrite list_fmap_delete.
  intros H. eapply sublist_NoDup; [done|apply sublist_delete].
Qed.

(** *** Summary *)

Local Ltac attending_at Hu :=
  unfold attending; rewrite Hu; simpl;
  first [ by split; [|f_equal] | intros [_ ?]; congruence ].

Lemma count_attending_step us m s r :
  count_attending us (m, s) r =
  ((m + length (filter (attending us "mentor") [r]))%nat,
   (s + length (filter (attending us "student") [r]))%nat).
Proof.
  assert (Hno : ∀ c, ¬ attending us c r → length (filter (attending us c) [r]) = 0%nat).
  { intros c H. by rewrite filter_cons_False. }
  assert (Hyes : ∀ c, attending us c r → length (filter (attending us c) [r]) = 1%nat).
  { intros c H. by rewrite filter_cons_True. }
  unfold count_attending.
  destruct (decide (EventResponse.status r = "Yes")) as [Hy|Hn].
  - destruct (us !! EventResponse.user_id r) as [user|] eqn:Hu; simpl.
    + destruct (decide (User.type user = "mentor")) as [Hm|Hm];
        [|destruct (decide (User.type user = "student")) as [Hs|Hs]]; simpl.
      * rewrite (Hyes "mentor"), (Hno "student"); [f_equal; lia|..]; attending_at Hu.
      * rewrite (Hno "mentor"), (Hyes "student"); [f_equal; lia|..]; attending_at Hu.
      * rewrite !Hno; [f_equal; lia|..]; attending_at Hu.
    + rewrite !Hno; [f_equal; lia|..]; attending_at Hu.
  - rewrite !Hno; [f_equal; lia|..]; by intros [? _].
Qed.

Lemma count_attending_foldl us rs m s :
  foldl (count_attending us) (m, s) rs =
  ((m + length (filter (attending us "mentor") rs))%nat,
   (s + length (filter (attending us "student") rs))%nat).
Proof.
  revert m s. induction rs as [|r rs IH]; intros m s.
  { simpl. f_equal; lia. }
  change (r :: rs) with ([r] ++ rs).
  rewrite foldl_app, !filter_app, !length_app. simpl foldl at 2.
  rewrite count_attending_step, IH. f_equal; lia.
Qed.

(** C9.  For an existing event the summary is the five items yes, no,
    maybe, mentors_attending, students_attending and leaves the world
    alone.  The first three count the event's responses by status; the last
    two count its Yes responses whose person exists with type exactly
    "mentor", respectively "student".  A Yes response whose person is
    missing, or has any other type, counts in yes and in neither attending
    bucket. *)
Theorem responses_summary_counts event_id w ev :
  events (db w) !! event_id = Some ev →
  let rs := responses_of event_id (db w) in
  let us := users (db w) in
  responses_summary event_id w =
    (Ok [("yes", length (filter (λ r, EventResponse.status r = "Yes") rs));
         ("no", length (filter (λ r, EventResponse.status r = "No") rs));
         ("maybe", length (filter (λ r, EventResponse.status r = "Maybe") rs));
         ("mentors_attending", length (filter (attending us "mentor") rs));
         ("students_attending", length (filter (attending us "student") rs))], w)
  ∧ ∀ r, EventResponse.status r = "Yes" →
         (us !! EventResponse.user_id r = None ∨
          ∃ u, us !! EventResponse.user_id r = Some u
               ∧ User.type u ≠ "mentor" ∧ User.type u ≠ "student") →
         filter (λ r, EventResponse.status r = "Yes") [r] = [r]
         ∧ filter (attending us "mentor") [r] = []
         ∧ filter (attending us "student") [r] = [].
Proof.
  intros Hev rs us. split.
  - unfold responses_summary. run_guard. rewrite Hev.
    unfold mbind, M_bind, read. simpl.
    rewrite count_attending_foldl. reflexivity.
  - intros r Hy Hu. split_and!.
    + by rewrite filter_cons_True.
    + rewrite filter_cons_False; [done|]. intros [_ Ht].
      destruct Hu as [Hu|(u & Hu & Hm & _)]; rewrite Hu in Ht; simplify_eq/=.
    + rewrite filter_cons_False; [done|]. intros [_ Ht].
      destruct Hu as [Hu|(u & Hu & _ & Hs)]; rewrite Hu in Ht; simplify_eq/=.
Qed.

(** ** Reconciliation *)

Lemma sorted_perm s : sorted s ≡ₚ elements s.
Proof. apply merge_sort_Permutation. Qed.

Lemma elem_of_sorted k s : k ∈ sorted s ↔ k ∈ s.
Proof. by rewrite sorted_perm, elem_of_elements. Qed.

Lemma NoDup_sorted s : NoDup (sorted s).
Proof. rewrite sorted_perm. apply NoDup_elements. Qed.

Lemma sorted_ascending s : StronglySorted Z.le (sorted s).
Proof. apply (StronglySorted_merge_sort _). Qed.

Lemma load_db_users_lookup st k :
  load_db_users st !! k =
  (λ u, UserDict.Dict k (User.name u) (User.type u) (User.role u) (User.active u))
    <$> users st !! k.
Proof. unfold load_db_users. rewrite map_lookup_imap. by destruct (users st !! k). Qed.

Lemma load_db_users_dom st : dom (load_db_users st) = dom (users st).
Proof.
  apply set_eq. intros k. rewrite !elem_of_dom, load_db_users_lookup.
  by rewrite fmap_is_Some.
Qed.



(** *** Validation *)

Lemma check_name_step csv_users db_users acc k m :
  m ∈ check_name csv_users db_users acc k ↔
  m ∈ acc ∨ mismatch_at csv_users db_users k m.
Proof.
  unfold check_name, mismatch_at.
  destruct (csv_users !! k) as [c|], (db_users !! k) as [d|]; try case_decide;
    rewrite ?elem_of_app, ?list_elem_of_singleton.
  - split; (intros [?|Hm]; [by left|right]).
    + subst m. by exists c, d.
    + destruct Hm as (c' & d' & ? & ? & ? & ?). by simplify_eq.
  - split; [by left|]. intros [?|(c' & d' & ? & ? & ? & ?)]; [done|]. by simplify_eq.
  - split; [by left|]. intros [?|(c' & d' & ? & ? & ? & ?)]; [done|]. by simplify_eq.
  - split; [by left|]. intros [?|(c' & d' & ? & ? & ? & ?)]; [done|]. by simplify_eq.
  - split; [by left|]. intros [?|(c' & d' & ? & ? & ? & ?)]; [done|]. by simplify_eq.
Qed.

Lemma check_name_foldl csv_users db_users ks acc m :
  m ∈ foldl (check_name csv_users db_users) acc ks ↔
  m ∈ acc ∨ ∃ k, k ∈ ks ∧ mismatch_at csv_users db_users k m.
Proof.
  revert acc. induction ks as [|k ks IH]; intros acc; simpl.
  { split; [by left|]. by intros [?|(? & ?%elem_of_nil & _)]. }
  rewrite IH, check_name_step. split.
  - intros [[?|?]|(k' & ? & ?)]; [by left|right..].
    + exists k. split; [left|done].
    + exists k'. split; [by right|done].
  - intros [?|(k' & [->|?]%elem_of_cons & ?)].
    + by left; left.
    + by left; right.
    + right. by exists k'.
Qed.

Lemma elem_of_validate csv_users db_users m :
  m ∈ validate csv_users db_users ↔ ∃ k, mismatch_at csv_users db_users k m.
Proof.
  unfold validate. rewrite check_name_foldl. split.
  - intros [?%elem_of_nil|(k & _ & ?)]; [done|by exists k].
  - intros (k & Hm). right. exists k. split; [|done].
    destruct Hm as (c & d & Hc & Hd & _).
    apply elem_of_sorted, elem_of_intersection. split; apply elem_of_dom; eauto.
Qed.

(** A run is the gate, then the two write phases. *)
Lemma sync_users_gate csv_users st :
  sync_users csv_users st =
  match validate csv_users (load_db_users st) with
  | m :: ms => (Exit1 (m :: ms), st, [])
  | [] =>
      let db_only := dom (load_db_users st) ∖ dom csv_users in
      let s := if decide (db_only ≠ ∅)
               then session_commit (foldl delete_one (open_session st) (sorted db_only))
               else open_session st in
      match for_each (sync_one csv_users) (sorted (dom csv_users)) (MkCounts s 0 0) with
      | None => (IntegrityError, committed s, oplog s)
      | Some c =>
          (Returned (MkSummary (size db_only) (updates_count c) (inserts_count c)
                       (bool_decide (updates_count c = 0 ∧ inserts_count c = 0
                                     ∧ size db_only = 0))%nat),
           committed (session_commit (sess c)), oplog (session_commit (sess c)))
      end
  end.
Proof. unfold sync_users, validate. by destruct (foldl _ _ _). Qed.

(** *** The delete phase *)

Lemma delete_phase s ks :
  NoDup ks → (∀ k, k ∈ ks → is_Some (pending s !! k)) →
  let s' := foldl delete_one s ks in
  committed s' = committed s
  ∧ oplog s' = oplog s ++ (OpDelete <$> ks)
  ∧ ∀ k, pending s' !! k = if decide (k ∈ ks) then None else pending s !! k.
Proof.
  revert s. induction ks as [|k ks IH]; intros s Hnd Hin; simpl.
  { split_and!; [done|by rewrite app_nil_r|done]. }
  apply NoDup_cons in Hnd as [Hk Hnd].
  destruct (Hin k) as [row Hrow]; [by left|].
  assert (delete_one s k = session_delete s k) as ->.
  { unfold delete_one, session_get. by rewrite Hrow. }
  destruct (IH (session_delete s k) Hnd) as (Hc & Hl & Hp).
  { intros k' Hk'. simpl. rewrite lookup_delete_ne; [apply Hin; by right|].
    by intros ->. }
  split_and!.
  - by rewrite Hc.
  - rewrite Hl. simpl. by rewrite <-app_assoc.
  - intros k'. rewrite Hp. simpl. destruct (decide (k' = k)) as [->|Hne].
    + rewrite decide_False by done. rewrite lookup_delete_eq.
      by rewrite decide_True by left.
    + rewrite lookup_delete_ne by done.
      destruct (decide (k' ∈ ks)); [by rewrite decide_True by (by right)|].
      rewrite decide_False; [done|]. by intros [?|?]%elem_of_cons.
Qed.

(** *** The update-or-insert loop *)

Lemma apply_changes_spec row c :
  apply_changes row c = (cols_of c, bool_decide (field_differs row c)).
Proof.
  destruct row as [n t r a], c as [i n' t' r' a'].
  unfold apply_changes, field_differs, cols_of; simpl.
  repeat (case_decide; simpl); subst;
    (rewrite bool_decide_eq_true_2 by tauto) || (rewrite bool_decide_eq_false_2 by tauto);
    reflexivity.
Qed.

Lemma not_field_differs row c : ¬ field_differs row c → row = cols_of c.
Proof.
  destruct row as [n t r a], c as [i n' t' r' a']. unfold field_differs, cols_of.
  simpl. intros H.
  destruct (decide (n = n')), (decide (t = t')), (decide (r = r')), (decide (a = a'));
    subst; tauto.
Qed.

Lemma sync_one_spec csv_users c k cu :
  csv_users !! k = Some cu → UserDict.id cu = k →
  ∃ c', sync_one csv_users c k = Some c'
    ∧ committed (sess c') = committed (sess c)
    ∧ pending (sess c') = <[k := cols_of cu]> (pending (sess c))
    ∧ oplog (sess c') = oplog (sess c) ++ planned csv_users (pending (sess c)) k
    ∧ updates_count c' =
        (updates_count c + count_phase 1 (planned csv_users (pending (sess c)) k))%nat
    ∧ inserts_count c' =
        (inserts_count c + count_phase 2 (planned csv_users (pending (sess c)) k))%nat.
Proof.
  intros Hcu Hid. unfold sync_one, planned, session_get. rewrite Hcu.
  destruct (pending (sess c) !! k) as [row|] eqn:Hrow; simpl.
  - rewrite apply_changes_spec. case_bool_decide as Hd.
    + rewrite decide_True by done. eexists. split; [done|]. simpl.
      split_and!; try done; unfold count_phase; simpl; lia.
    + rewrite decide_False by done. exists c. split; [done|].
      rewrite app_nil_r. apply not_field_differs in Hd as <-.
      rewrite insert_id by done.
      split_and!; try done; unfold count_phase; simpl; lia.
  - unfold session_add_new. simpl. rewrite Hid, Hrow. simpl.
    eexists. split; [done|]. simpl. unfold cols_of.
    split_and!; try done; unfold count_phase; simpl; lia.
Qed.

Lemma planned_ext csv_users t1 t2 (ks : list Z) :
  (∀ k, k ∈ ks → t1 !! k = t2 !! k) →
  ks ≫= planned csv_users t1 = ks ≫= planned csv_users t2.
Proof.
  induction ks as [|k ks IH]; intros H; [done|]. rewrite !bind_cons.
  rewrite IH by (intros; apply H; by right).
  f_equal. unfold planned. rewrite (H k) by left. done.
Qed.

Lemma count_phase_app n xs ys :
  count_phase n (xs ++ ys) = (count_phase n xs + count_phase n ys)%nat.
Proof. unfold count_phase. by rewrite filter_app, length_app. Qed.

Lemma sync_loop csv_users ks c :
  keyed csv_users → NoDup ks → (∀ k, k ∈ ks → is_Some (csv_users !! k)) →
  ∃ c', for_each (sync_one csv_users) ks c = Some c'
    ∧ committed (sess c') = committed (sess c)
    ∧ oplog (sess c') = oplog (sess c) ++ (ks ≫= planned csv_users (pending (sess c)))
    ∧ updates_count c' =
        (updates_count c + count_phase 1 (ks ≫= planned csv_users (pending (sess c))))%nat
    ∧ inserts_count c' =
        (inserts_count c + count_phase 2 (ks ≫= planned csv_users (pending (sess c))))%nat
    ∧ ∀ k, pending (sess c') !! k =
           if decide (k ∈ ks) then cols_of <$> csv_users !! k
           else pending (sess c) !! k.
Proof.
  intros Hkeyed. revert c. induction ks as [|k ks IH]; intros c Hnd Hin.
  { exists c. change ([] ≫= planned csv_users (pending (sess c))) with (@nil Op). rewrite app_nil_r.
    split_and!; try done; unfold count_phase; simpl; lia. }
  apply NoDup_cons in Hnd as [Hk Hnd].
  destruct (Hin k) as [cu Hcu]; [by left|].
  destruct (sync_one_spec csv_users c k cu Hcu (Hkeyed _ _ Hcu))
    as (c1 & Hrun1 & Hc1 & Hp1 & Hl1 & Hu1 & Hi1).
  destruct (IH c1 Hnd) as (c' & Hrun & Hc & Hl & Hu & Hi & Hp).
  { intros; apply Hin; by right. }
  assert (ks ≫= planned csv_users (pending (sess c1))
          = ks ≫= planned csv_users (pending (sess c))) as Hplan.
  { apply planned_ext. intros k' Hk'. rewrite Hp1, lookup_insert_ne; [done|].
    by intros ->. }
  rewrite Hplan in *. exists c'. rewrite bind_cons, !count_phase_app.
  split_and!.
  - simpl. by rewrite Hrun1.
  - by rewrite Hc.
  - by rewrite Hl, Hl1, <-app_assoc.
  - rewrite Hu, Hu1. lia.
  - rewrite Hi, Hi1. lia.
  - intros k'. rewrite Hp, Hp1. destruct (decide (k' = k)) as [->|Hne].
    + rewrite decide_False by done. rewrite lookup_insert_eq, Hcu.
      by rewrite decide_True by left.
    + rewrite lookup_insert_ne by done.
      destruct (decide (k' ∈ ks)); [by rewrite decide_True by (by right)|].
      rewrite decide_False; [done|]. by intros [?|?]%elem_of_cons.
Qed.

(** *** A whole run past the gate *)

Lemma after_deletes st (db_only : gset Z) :
  db_only ⊆ dom (users st) →
  let s := if decide (db_only ≠ ∅)
           then session_commit (foldl delete_one (open_session st) (sorted db_only))
           else open_session st in
  (∀ tbl, set_users (λ _, tbl) (committed s) = set_users (λ _, tbl) st)
  ∧ oplog s = delete_ops db_only
  ∧ ∀ k, pending s !! k = if decide (k ∈ db_only) then None else users st !! k.
Proof.
  intros Hsub. unfold delete_ops. case_decide as Hne; simpl.
  - destruct (delete_phase (open_session st) (sorted db_only)) as (Hc & Hl & Hp).
    { apply NoDup_sorted. }
    { intros k Hk%elem_of_sorted. apply elem_of_dom. simpl. by apply Hsub. }
    rewrite Hc, Hl. simpl. split_and!; [done..|].
    intros k. rewrite Hp. simpl.
    destruct (decide (k ∈ db_only)).
    + by rewrite decide_True by (by apply elem_of_sorted).
    + by rewrite decide_False by (by rewrite elem_of_sorted).
  - split_and!; [done..|]. intros k. rewrite decide_False; [done|].
    rewrite Hne. apply not_elem_of_empty.
Qed.

Lemma sync_users_run csv_users st :
  keyed csv_users → validate csv_users (load_db_users st) = [] →
  sync_users csv_users st =
  (Returned
     (MkSummary (size (dom (load_db_users st) ∖ dom csv_users))
        (count_phase 1 (sorted (dom csv_users) ≫= planned csv_users (users st)))
        (count_phase 2 (sorted (dom csv_users) ≫= planned csv_users (users st)))
        (bool_decide
           (count_phase 1 (sorted (dom csv_users) ≫= planned csv_users (users st)) = 0
            ∧ count_phase 2 (sorted (dom csv_users) ≫= planned csv_users (users st)) = 0
            ∧ size (dom (load_db_users st) ∖ dom csv_users) = 0)%nat)),
   set_users (λ _, cols_of <$> csv_users) st,
   delete_ops (dom (load_db_users st) ∖ dom csv_users)
   ++ (sorted (dom csv_users) ≫= planned csv_users (users st)) ++ [OpCommit]).
Proof.
  intros Hkeyed Hvalid. rewrite sync_users_gate, Hvalid. cbn zeta.
  set (db_only := dom (load_db_users st) ∖ dom csv_users).
  destruct (after_deletes st db_only) as (Hc & Hl & Hp).
  { unfold db_only. rewrite load_db_users_dom.
    by intros k [? _]%elem_of_difference. }
  set (s := if decide (db_only ≠ ∅) then _ else _) in *.
  destruct (sync_loop csv_users (sorted (dom csv_users)) (MkCounts s 0 0) Hkeyed)
    as (c' & -> & Hc' & Hl' & Hu' & Hi' & Hp').
  { apply NoDup_sorted. }
  { intros k Hk%elem_of_sorted. by apply elem_of_dom. }
  simpl in Hc', Hl', Hu', Hi', Hp'.
  assert (sorted (dom csv_users) ≫= planned csv_users (pending s)
          = sorted (dom csv_users) ≫= planned csv_users (users st)) as Hplan.
  { apply planned_ext. intros k Hk%elem_of_sorted. rewrite Hp.
    rewrite decide_False; [done|]. by intros [_ ?]%elem_of_difference. }
  rewrite Hplan in *.
  assert (pending (sess c') = cols_of <$> csv_users) as Hfinal.
  { apply map_eq. intros k. rewrite Hp', lookup_fmap.
    destruct (decide (k ∈ sorted (dom csv_users))) as [|Hk]; [done|].
    rewrite elem_of_sorted in Hk. rewrite (not_elem_of_dom_1 _ _ Hk). simpl.
    rewrite Hp. case_decide as Hd; [done|].
    apply not_elem_of_dom. rewrite <-load_db_users_dom.
    intros ?. apply Hd. by apply elem_of_difference. }
  simpl. rewrite Hc', Hl', Hu', Hi', Hl, Hfinal. simpl.
  f_equal; [f_equal|by rewrite <-app_assoc]. apply Hc.
Qed.

(** *** Frame: a run touches table [user] only *)

Lemma delete_one_committed s ks :
  committed (foldl delete_one s ks) = committed s.
Proof.
  revert s. induction ks as [|k ks IH]; intros s; [done|]. simpl. rewrite IH.
  unfold delete_one. by destruct (session_get s k).
Qed.

Lemma sync_one_committed csv_users c k c' :
  sync_one csv_users c k = Some c' → committed (sess c') = committed (sess c).
Proof.
  unfold sync_one. destruct (csv_users !! k) as [cu|]; [|by intros [= <-]].
  destruct (session_get (sess c) k) as [db_user|].
  - destruct (apply_changes _ _) as [row [|]]; by intros [= <-].
  - unfold session_add_new. simpl.
    destruct (pending (sess c) !! UserDict.id cu); simpl; [done|]. by intros [= <-].
Qed.

Lemma for_each_committed csv_users ks c c' :
  for_each (sync_one csv_users) ks c = Some c' →
  committed (sess c') = committed (sess c).
Proof.
  revert c. induction ks as [|k ks IH]; intros c; simpl; [by intros [= <-]|].
  destruct (sync_one csv_users c k) as [c1|] eqn:H1; simpl; [|done].
  intros ->%IH. by eapply sync_one_committed.
Qed.

Lemma sync_users_frame csv_users st :
  same_but_users st (sync_users csv_users st).1.2.
Proof.
  rewrite sync_users_gate. destruct (validate _ _); [|done]. cbn zeta.
  set (s := if decide _ then _ else _).
  assert (same_but_users st (committed s)) as Hs.
  { unfold s. case_decide; [|done]. simpl. by rewrite delete_one_committed. }
  destruct (for_each _ _ _) as [c|] eqn:Hrun; simpl; [|done].
  apply for_each_committed in Hrun. simpl in Hrun. rewrite Hrun. apply Hs.
Qed.

(** *** Which operations a run issues *)

Lemma elem_of_delete_ops o (ks : gset Z) :
  o ∈ delete_ops ks ↔ (∃ k, k ∈ ks ∧ o = OpDelete k) ∨ (ks ≠ ∅ ∧ o = OpCommit).
Proof.
  unfold delete_ops. case_decide as Hne.
  - rewrite elem_of_app, list_elem_of_fmap, list_elem_of_singleton. split.
    + intros [(k & -> & Hk%elem_of_sorted) | ->]; [left; by exists k|by right].
    + intros [(k & Hk & ->)|[_ ->]]; [left|by right].
      exists k. by rewrite elem_of_sorted.
  - split; [by intros ?%elem_of_nil|].
    intros [(k & Hk & _)|[? _]]; [|done]. rewrite Hne in Hk.
    by apply not_elem_of_empty in Hk.
Qed.








(** C3.  If some common key has unequal names the run exits through
    [sys.exit(1)] with a mismatch list that holds the entry (id, csv_name,
    db_name) of every common key with unequal names; the database is the
    one the run started from and the session issued no operation. *)
Theorem sync_identity_conflict csv_users st k c d :
  csv_users !! k = Some c → load_db_users st !! k = Some d →
  UserDict.name c ≠ UserDict.name d →
  ∃ mismatches,
    sync_users csv_users st = (Exit1 mismatches, st, [])
    ∧ ∀ k' c' d', csv_users !! k' = Some c' → load_db_users st !! k' = Some d' →
        UserDict.name c' ≠ UserDict.name d' →
        Mismatch.Entry k' (UserDict.name c') (UserDict.name d') ∈ mismatches.
Proof.
  intros Hc Hd Hne. rewrite sync_users_gate.
  destruct (validate csv_users (load_db_users st)) as [|m ms] eqn:Hv.
  - assert (Mismatch.Entry k (UserDict.name c) (UserDict.name d)
            ∈ validate csv_users (load_db_users st)) as Hin.
    { apply elem_of_validate. exists k, c, d. done. }
    rewrite Hv in Hin. by apply elem_of_nil in Hin.
  - exists (m :: ms). split; [done|]. intros k' c' d' Hc' Hd' Hne'.
    rewrite <-Hv. apply elem_of_validate. by exists k', c', d'.
Qed.

Lemma sync_identity_conflict_witness :
  let csv_users : gmap Z UserDict.t :=
    {[2 := UserDict.Dict 2 "Bea" "student" "captain" true;
      3 := UserDict.Dict 3 "Cy" "student" "scout" true;
      5 := UserDict.Dict 5 "Alice" "mentor" "coach" true]} in
  let st := MkStore {[2 := User.Cols "B" "student" "driver" true;
                      3 := User.Cols "Cy" "student" "scout" true;
                      5 := User.Cols "Bob" "mentor" "coach" true]} ∅ ∅ [] in
  ∃ mismatches,
    sync_users csv_users st = (Exit1 mismatches, st, [])
    ∧ Mismatch.Entry 2 "Bea" "B" ∈ mismatches
    ∧ Mismatch.Entry 5 "Alice" "Bob" ∈ mismatches.
Proof.
  intros csv_users st.
  destruct (sync_identity_conflict csv_users st 5
              (UserDict.Dict 5 "Alice" "mentor" "coach" true)
              (UserDict.Dict 5 "Bob" "mentor" "coach" true))
    as (mismatches & Hrun & Hall); [by vm_compute..|].
  exists mismatches. split; [done|]. split.
  - apply (Hall 2 (UserDict.Dict 2 "Bea" "student" "captain" true)
                  (UserDict.Dict 2 "B" "student" "driver" true)); by vm_compute.
  - apply (Hall 5 (UserDict.Dict 5 "Alice" "mentor" "coach" true)
                  (UserDict.Dict 5 "Bob" "mentor" "coach" true)); by vm_compute.
Defined.

(** *** No-op and idempotence *)








(** ** The pair invariant over sequential runs *)

Lemma filter_same_key_nil e u rows :
  (e, u) ∉ key_of <$> rows → filter (same_key e u) rows = [].
Proof.
  induction rows as [|x rows IH]; [done|]. rewrite fmap_cons, not_elem_of_cons.
  intros [Hx Hrows]. rewrite filter_cons_False; [by apply IH|].
  intros [He Hu]. apply Hx. unfold key_of. by rewrite He, Hu.
Qed.

Lemma unique_pairs_filter e u rows i r :
  unique_pairs rows → rows !! i = Some r → same_key e u r →
  filter (same_key e u) rows = [r].
Proof.
  unfold unique_pairs. revert i.
  induction rows as [|x rows IH]; intros i Hnd Hi Hr; [done|].
  rewrite fmap_cons in Hnd. apply NoDup_cons in Hnd as [Hx Hnd].
  assert (key_of r = (e, u)) as Hkey.
  { destruct Hr as [He Hu]. unfold key_of. by rewrite He, Hu. }
  destruct i as [|i]; simpl in Hi.
  - simplify_eq. rewrite filter_cons_True by done. f_equal.
    apply filter_same_key_nil. by rewrite <-Hkey.
  - rewrite filter_cons_False; [by eapply IH|].
    intros [He Hu]. apply Hx. apply list_elem_of_fmap. exists r.
    split; [|by eapply list_elem_of_lookup_2].
    rewrite Hkey. unfold key_of. by rewrite He, Hu.
Qed.

Section sequential.
Variable clock : nat → Z.

(** What a successful upsert leaves behind. *)
Lemma upsert_ok_find event_id resp_in w r w' :
  create_or_update_response clock event_id resp_in w = (Ok r, w') →
  ∃ i, list_find (same_key event_id (EventResponseCreate.user_id resp_in))
         (responses (db w')) = Some (i, r)
    ∧ EventResponse.status r = EventResponseCreate.status resp_in
    ∧ EventResponse.note r = EventResponseCreate.note resp_in
    ∧ ticks w' = S (pred (ticks w'))
    ∧ EventResponse.updated_at r = clock (pred (ticks w'))
    ∧ (unique_pairs (responses (db w)) → unique_pairs (responses (db w'))).
Proof.
  intros Hrun.
  destruct (upsert_ok_inv clock _ _ _ _ _ Hrun) as (Hev & Hu & Hs).
  rewrite (upsert_guards_pass clock _ _ _ Hev Hu Hs) in Hrun.
  destruct (list_find _ _) as [[i existing]|] eqn:Hfind.
  - injection Hrun as <- <-. simpl.
    apply list_find_Some in Hfind as (Hi & Hk & Hleast).
    exists i. split_and!; try done.
    + apply list_find_Some. split_and!.
      * apply list_lookup_insert_eq. by eapply lookup_lt_Some.
      * done.
      * intros j y Hj Hlt. rewrite list_lookup_insert_ne in Hj by lia.
        by eapply Hleast.
    + by eapply unique_pairs_overwrite.
  - injection Hrun as <- <-. simpl.
    exists (length (responses (db w))). split_and!; try done.
    + apply list_find_Some. split_and!.
      * by rewrite lookup_app_r, Nat.sub_diag.
      * done.
      * intros j y Hj Hlt. rewrite lookup_app_l in Hj by done.
        apply list_find_None in Hfind. rewrite Forall_forall in Hfind.
        apply Hfind. by eapply list_elem_of_lookup_2.
    + apply unique_pairs_append. by apply find_same_key_None.
Qed.

Lemma delete_user_run user_id w :
  ∃ out, delete_user user_id w = (out, MkWorld (set_users
           (if users (db w) !! user_id is Some _ then delete user_id else id) (db w))
           (ticks w)).
Proof.
  unfold delete_user. run_guard.
  destruct (users (db w) !! user_id); simpl; eexists; [reflexivity|].
  unfold raise. by destruct w as [[] ?].
Qed.

Lemma delete_user_responses user_id w :
  responses (db (delete_user user_id w).2) = responses (db w).
Proof. destruct (delete_user_run user_id w) as [out ->]. done. Qed.

Lemma delete_response_unique event_id user_id w :
  unique_pairs (responses (db w)) →
  unique_pairs (responses (db (delete_response event_id user_id w).2)).
Proof.
  intros H. unfold delete_response. run_guard.
  destruct (events (db w) !! event_id); [|done]. run_guard.
  destruct (list_find _ _) as [[i r]|]; [|done]. simpl.
  by apply unique_pairs_delete.
Qed.

Lemma step_unique_pairs st st' :
  step clock st st' → unique_pairs (responses st) → unique_pairs (responses st').
Proof.
  intros Hstep H. destruct Hstep as
    [event_id resp_in st n out w' Hrun | event_id user_id st n out w' Hrun
    | user_id st n out w' Hrun | csv_users st | st st' Hsame].
  - destruct out as [r|e].
    + by destruct (upsert_ok_find _ _ _ _ _ Hrun) as (_ & _ & _ & _ & _ & _ & Hu); apply Hu.
    + by apply upsert_raise_inv in Hrun as ->.
  - pose proof (delete_response_unique event_id user_id (MkWorld st n) H) as Hd.
    by rewrite Hrun in Hd.
  - pose proof (delete_user_responses user_id (MkWorld st n)) as Hd.
    rewrite Hrun in Hd. simpl in Hd. by rewrite Hd.
  - by destruct (sync_users_frame csv_users st) as (_ & _ & ->).
  - by rewrite Hsame.
Qed.

Lemma reachable_unique_pairs st :
  reachable clock st → unique_pairs (responses st).
Proof.
  revert st. apply (rtc_ind_r (λ st, unique_pairs (responses st))).
  - apply NoDup_nil_2.
  - intros st1 st2 _ Hstep IH. by eapply step_unique_pairs.
Qed.
End sequential.

(** Fixtures *)

(** C4, amended.  In every database that sequential operation reaches from
    the fresh schema, table [eventresponse] holds at most one row per
    (event_id, user_id) pair.  The table itself does not enforce this: it is
    the read-then-write of the upsert that keeps it. *)
Theorem reachable_at_most_one_row clock st :
  reachable clock st → unique_pairs (responses st).
Proof. apply reachable_unique_pairs. Qed.

Lemma club_db_reachable : reachable ticking club_db.
Proof. eapply rtc_once, step_crud. reflexivity. Qed.

Lemma club_after_rsvp_reachable :
  reachable ticking
    (db (create_or_update_response ticking 7 (EventResponseCreate.Body 1 "Yes" None) (MkWorld club_db 0)).2).
Proof.
  eapply rtc_r; [apply club_db_reachable|].
  eapply (step_upsert ticking 7 (EventResponseCreate.Body 1 "Yes" None) club_db 0).
  apply surjective_pairing.
Qed.

Lemma reachable_at_most_one_row_witness :
  unique_pairs
    (responses
       (db (create_or_update_response ticking 7 (EventResponseCreate.Body 1 "Yes" None)
              (MkWorld club_db 0)).2)).
Proof.
  apply (reachable_at_most_one_row ticking), club_after_rsvp_reachable.
Defined.

(** C4 as stated fails: the table takes a second row for a pair it already
    holds; no constraint rejects the insert. *)
Lemma table_accepts_second_row_for_pair :
  let first := EventResponse.Row 1 1 7 "Yes" None 100 100 in
  let second := EventResponse.Row 2 1 7 "No" None 200 200 in
  unique_pairs [first]
  ∧ insert_response 1 7 "No" None 200 200 (MkWorld (MkStore ∅ ∅ ∅ [first]) 0)
    = (Ok second, MkWorld (MkStore ∅ ∅ ∅ [first; second]) 0)
  ∧ ¬ unique_pairs [first; second].
Proof.
  intros first second. split_and!.
  - apply (bool_decide_unpack _). by vm_compute.
  - by vm_compute.
  - intros H%(bool_decide_pack _). by vm_compute in H.
Qed.



(** ** Deleting a person *)


(** ** Operator entry points *)



Lemma reset_main_unfold argv stdin ts today d :
  reset_main argv stdin ts today d =
  let eff := if forced argv then [] else [EffPrompt reset_prompt] in
  if reset_confirms argv stdin
  then ((reset_database argv ts today d).1, eff ++ (reset_database argv ts today d).2)
  else (d, eff).
Proof.
  unfold reset_main, reset_confirms, forced.
  destruct argv as [|prog [|flag argv]]; simpl.
  - destruct (startswith _ _); [|done]. by destruct (reset_database _ _ _ _).
  - destruct (startswith _ _); [|done]. by destruct (reset_database _ _ _ _).
  - destruct (bool_decide (flag ∈ ["-y"; "--yes"])); simpl.
    + by destruct (reset_database _ _ _ _).
    + destruct (startswith _ _); [|done]. by destruct (reset_database _ _ _ _).
Qed.






(** ** Worked requests *)

(** C1 as stated fails: for a first response the two timestamps are two
    clock readings, and they differ when the clock advances in between. *)
Lemma upsert_insert_stamps_differ :
  let w := MkWorld club_db 0 in
  let row := EventResponse.Row 1 1 7 "Yes" None 100 101 in
  (is_Some (events (db w) !! 7) ∧ is_Some (users (db w) !! 1)
   ∧ "Yes" ∈ ["Yes"; "No"; "Maybe"]
   ∧ list_find (same_key 7 1) (responses (db w)) = None)
  ∧ create_or_update_response ticking 7 (EventResponseCreate.Body 1 "Yes" None) w
    = (Ok row, MkWorld (set_responses (λ _, [row]) club_db) 2)
  ∧ EventResponse.created_at row ≠ EventResponse.updated_at row.
Proof.
  intros w row. split_and!; try by vm_compute.
  - by eexists.
  - by eexists.
  - left.
Qed.

Lemma upsert_overwrites_or_creates_witness :
  let w := MkWorld (set_responses
                      (λ _, [EventResponse.Row 1 2 7 "Maybe" None 100 101;
                             EventResponse.Row 2 1 7 "Yes" (Some "late") 102 103])
                      club_db) 4 in
  ∃ row w',
    create_or_update_response ticking 7 (EventResponseCreate.Body 1 "No" None) w = (Ok row, w')
    ∧ responses (db w')
      = [EventResponse.Row 1 2 7 "Maybe" None 100 101;
         EventResponse.Row 2 1 7 "No" None 102 104]
    ∧ row = EventResponse.Row 2 1 7 "No" None 102 104.
Proof.
  intros w.
  destruct (upsert_overwrites_or_creates ticking 7 (EventResponseCreate.Body 1 "No" None) w)
    as (row & w' & Hrun & _ & _ & He & Hu & Hs & Hn & Hcase).
  - by eexists.
  - by eexists.
  - right; left.
  - exists row, w'. split; [done|].
    assert (list_find (same_key 7 (EventResponseCreate.user_id (EventResponseCreate.Body 1 "No" None)))
              (responses (db w))
            = Some (1%nat, EventResponse.Row 2 1 7 "Yes" (Some "late") 102 103))
      as Hfind by (by vm_compute).
    rewrite Hfind in Hcase. destruct Hcase as (Hrows & Hid & Hcreated & Hupdated).
    assert (row = EventResponse.Row 2 1 7 "No" None 102 104) as Hrow.
    { destruct row. simpl in *. by subst. }
    split; [|done]. rewrite Hrows, Hrow. reflexivity.
Defined.

Lemma upsert_rejects_before_write_witness :
  let w := MkWorld club_db 0 in
  ∃ e, create_or_update_response ticking 7 (EventResponseCreate.Body 1 "Perhaps" None) w = (Raise e, w)
       ∧ e = Http 400 "status must be 'Yes', 'No', or 'Maybe'".
Proof.
  intros w.
  destruct (upsert_rejects_before_write ticking 7 (EventResponseCreate.Body 1 "Perhaps" None) w)
    as (e & Hrun & He).
  - right; right. intros H%(bool_decide_pack _). by vm_compute in H.
  - exists e. split; [done|]. rewrite He. reflexivity.
Defined.

Lemma responses_summary_counts_witness :
  let w := MkWorld (set_responses
                      (λ _, [EventResponse.Row 1 1 7 "Yes" None 100 101;
                             EventResponse.Row 2 2 7 "Yes" None 102 103;
                             EventResponse.Row 3 4 7 "Yes" None 104 105;
                             EventResponse.Row 4 9 7 "Yes" None 106 107;
                             EventResponse.Row 5 2 8 "No" None 108 109])
                      club_db) 10 in
  responses_summary 7 w
  = (Ok [("yes", 4%nat); ("no", 0%nat); ("maybe", 0%nat);
         ("mentors_attending", 1%nat); ("students_attending", 1%nat)], w).
Proof.
  intros w.
  destruct (responses_summary_counts 7 w
              (Event.Cols "Kickoff" "Season kickoff" 739000 (15, 0) 60 None None None))
    as [Hrun _]; [by vm_compute|].
  rewrite Hrun. by vm_compute.
Defined.

(** * Further properties *)

(** ** Responses *)

Lemma filter_insert_other {A} (P : A → Prop) `{∀ x, Decision (P x)}
    (l : list A) i x y :
  l !! i = Some x → ¬ P x → ¬ P y → filter P (<[i := y]> l) = filter P l.
Proof.
  revert i. induction l as [|z l IH]; intros i Hi Hx Hy; [done|].
  destruct i as [|i]; simpl in *.
  - simplify_eq. by rewrite !filter_cons_False.
  - rewrite !filter_cons. by rewrite (IH i).
Qed.

Lemma filter_delete_other {A} (P : A → Prop) `{∀ x, Decision (P x)}
    (l : list A) i x :
  l !! i = Some x → ¬ P x → filter P (delete i l) = filter P l.
Proof.
  revert i. induction l as [|z l IH]; intros i Hi Hx; [done|].
  destruct i as [|i]; simpl in *.
  - simplify_eq. by rewrite filter_cons_False.
  - rewrite !filter_cons. by rewrite (IH i).
Qed.

Lemma same_key_other e u e' u' r :
  (e', u') ≠ (e, u) → same_key e u r → ¬ same_key e' u' r.
Proof. intros Hne [He Hu] [He' Hu']. apply Hne. congruence. Qed.

Lemma upsert_frame clock event_id resp_in w :
  let w' := (create_or_update_response clock event_id resp_in w).2 in
  users (db w') = users (db w) ∧ events (db w') = events (db w)
  ∧ event_types (db w') = event_types (db w)
  ∧ (length (responses (db w)) ≤ length (responses (db w'))
       ≤ S (length (responses (db w))))%nat
  ∧ ∀ e u, (e, u) ≠ (event_id, EventResponseCreate.user_id resp_in) →
      filter (same_key e u) (responses (db w'))
      = filter (same_key e u) (responses (db w)).
Proof.
  destruct (create_or_update_response clock event_id resp_in w) as [out w'] eqn:Hrun.
  simpl. destruct out as [r|err].
  - destruct (upsert_ok_inv clock _ _ _ _ _ Hrun) as (Hev & Hu & Hs).
    rewrite (upsert_guards_pass clock _ _ _ Hev Hu Hs) in Hrun.
    destruct (list_find _ _) as [[i existing]|] eqn:Hfind;
      injection Hrun as <- <-; simpl.
    + apply list_find_Some in Hfind as (Hi & Hk & _).
      rewrite length_insert. split_and!; try done; [lia|].
      intros e u Hne. eapply filter_insert_other; [done|..].
      * by eapply same_key_other.
      * eapply same_key_other; [done|]. destruct Hk as [He Hu']. by split.
    + rewrite length_app. simpl. split_and!; try done; [lia..|].
      intros e u Hne. rewrite filter_app, filter_cons_False, filter_nil, app_nil_r;
        [done|]. by eapply same_key_other.
  - apply upsert_raise_inv in Hrun as ->. split_and!; try done; lia.
Qed.

(** X1.  Whatever its outcome, a call of [create_or_update_response]
    leaves users, events and event types alone, removes no response row and
    adds at most one, and leaves the rows of every other (event, user) pair
    exactly as they were. *)
Theorem upsert_keeps_other_pairs clock event_id resp_in w :
  let w' := (create_or_update_response clock event_id resp_in w).2 in
  users (db w') = users (db w) ∧ events (db w') = events (db w)
  ∧ event_types (db w') = event_types (db w)
  ∧ (length (responses (db w)) ≤ length (responses (db w'))
       ≤ S (length (responses (db w))))%nat
  ∧ ∀ e u, (e, u) ≠ (event_id, EventResponseCreate.user_id resp_in) →
      filter (same_key e u) (responses (db w'))
      = filter (same_key e u) (responses (db w)).
Proof. apply upsert_frame. Qed.

Lemma list_responses_run event_id w ev :
  events (db w) !! event_id = Some ev →
  list_responses event_id w = (Ok (responses_of event_id (db w)), w).
Proof. intros Hev. unfold list_responses. run_guard. by rewrite Hev. Qed.

Lemma filter_same_key_event e u (rows : list EventResponse.t) :
  filter (same_key e u) (filter (λ r, EventResponse.event_id r = e) rows)
  = filter (same_key e u) rows.
Proof.
  induction rows as [|r rows IH]; [done|].
  destruct (decide (EventResponse.event_id r = e)) as [He|He].
  - rewrite (filter_cons_True (λ r, EventResponse.event_id r = e)) by done.
    rewrite !filter_cons. by rewrite IH.
  - rewrite (filter_cons_False (λ r, EventResponse.event_id r = e)) by done.
    rewrite (filter_cons_False (same_key e u)); [done|]. by intros [? _].
Qed.

(** X2.  After a successful upsert, [list_responses] for the same event
    succeeds without changing anything, lists the row the upsert returned,
    and lists rows of that event only; when the table held at most one row
    per pair before the upsert, the returned row is the only listed row of
    its user. *)
Theorem upsert_then_list_responses clock event_id resp_in w r w' :
  create_or_update_response clock event_id resp_in w = (Ok r, w') →
  ∃ rows, list_responses event_id w' = (Ok rows, w')
    ∧ r ∈ rows
    ∧ Forall (λ x, EventResponse.event_id x = event_id) rows
    ∧ (unique_pairs (responses (db w)) →
       filter (same_key event_id (EventResponseCreate.user_id resp_in)) rows = [r]).
Proof.
  intros Hrun.
  destruct (upsert_ok_inv clock _ _ _ _ _ Hrun) as ([ev Hev] & _ & _).
  destruct (upsert_ok_find clock _ _ _ _ _ Hrun) as (i & Hfind & _ & _ & _ & _ & Huniq).
  pose proof (upsert_frame clock event_id resp_in w) as (_ & Hevents & _).
  rewrite Hrun in Hevents. simpl in Hevents.
  apply list_find_Some in Hfind as (Hi & Hk & _).
  exists (responses_of event_id (db w')). split_and!.
  - apply list_responses_run with ev. by rewrite Hevents.
  - apply list_elem_of_filter. split; [by destruct Hk|by eapply list_elem_of_lookup_2].
  - apply Forall_forall. by intros x [? _]%list_elem_of_filter.
  - intros Hu. unfold responses_of. rewrite filter_same_key_event.
    eapply unique_pairs_filter; [by apply Huniq|done..].
Qed.

Lemma upsert_then_list_responses_witness :
  let r := EventResponse.Row 1 1 7 "Yes" None 100 101 in
  let w' := MkWorld (set_responses (λ _, [r]) club_db) 2 in
  create_or_update_response ticking 7 (EventResponseCreate.Body 1 "Yes" None)
    (MkWorld club_db 0) = (Ok r, w')
  ∧ ∃ rows, list_responses 7 w' = (Ok rows, w') ∧ r ∈ rows.
Proof.
  intros r w'.
  assert (create_or_update_response ticking 7 (EventResponseCreate.Body 1 "Yes" None)
            (MkWorld club_db 0) = (Ok r, w')) as Hrun by (by vm_compute).
  split; [done|].
  destruct (upsert_then_list_responses ticking _ _ _ _ _ Hrun)
    as (rows & Hlist & Hin & _).
  by exists rows.
Defined.

(** *** Deleting a response *)

Lemma NoDup_delete_not_elem {A} (l : list A) i x :
  NoDup l → l !! i = Some x → x ∉ delete i l.
Proof.
  intros Hnd. revert i. induction Hnd as [|y l Hy Hnd IH]; intros i Hl; [done|].
  destruct i as [|i]; simpl in *.
  - by simplify_eq.
  - apply not_elem_of_cons. split; [|by eapply IH].
    intros ->. apply Hy. by eapply list_elem_of_lookup_2.
Qed.

Lemma delete_response_cases event_id user_id w :
  delete_response event_id user_id w =
  match events (db w) !! event_id with
  | None => (Raise (Http 404 "Event not found"), w)
  | Some _ =>
      match list_find (same_key event_id user_id) (responses (db w)) with
      | None => (Raise (Http 404 "Response not found"), w)
      | Some (i, _) =>
          (Ok (), MkWorld (set_responses (delete i) (db w)) (ticks w))
      end
  end.
Proof.
  unfold delete_response. run_guard.
  destruct (events (db w) !! event_id); [|done]. run_guard.
  by destruct (list_find _ _) as [[i r]|].
Qed.

(** X3.  On a table with at most one row per pair, a successful
    [delete_response] leaves no row for the pair, keeps the rows of every
    other pair, shortens the table by exactly one row, keeps users and
    events, and a second delete of the same pair answers 404 "Response not
    found" without changing anything. *)
Theorem delete_response_removes_pair event_id user_id w w' :
  unique_pairs (responses (db w)) →
  delete_response event_id user_id w = (Ok (), w') →
  filter (same_key event_id user_id) (responses (db w')) = []
  ∧ (∀ e u, (e, u) ≠ (event_id, user_id) →
       filter (same_key e u) (responses (db w'))
       = filter (same_key e u) (responses (db w)))
  ∧ S (length (responses (db w'))) = length (responses (db w))
  ∧ users (db w') = users (db w) ∧ events (db w') = events (db w)
  ∧ delete_response event_id user_id w' = (Raise (Http 404 "Response not found"), w').
Proof.
  intros Huniq. rewrite delete_response_cases.
  destruct (events (db w) !! event_id) as [ev|] eqn:Hev; [|done].
  destruct (list_find _ _) as [[i r]|] eqn:Hfind; [|done].
  intros [= <-]. simpl.
  apply list_find_Some in Hfind as (Hi & Hk & _).
  assert (filter (same_key event_id user_id) (delete i (responses (db w))) = [])
    as Hgone.
  { apply filter_same_key_nil. unfold unique_pairs in Huniq.
    rewrite list_fmap_delete.
    assert (key_of r = (event_id, user_id)) as <-.
    { destruct Hk as [He Hu]. unfold key_of. by rewrite He, Hu. }
    eapply NoDup_delete_not_elem; [done|]. by rewrite list_lookup_fmap, Hi. }
  split_and!; try done.
  - intros e u Hne. eapply filter_delete_other; [done|]. by eapply same_key_other.
  - rewrite length_delete by eauto.
    apply lookup_lt_Some in Hi. lia.
  - rewrite delete_response_cases. simpl. rewrite Hev.
    destruct (list_find _ _) as [[j x]|] eqn:Hfind'; [|done].
    apply list_find_Some in Hfind' as (Hj & Hx & _).
    assert (x ∈ filter (same_key event_id user_id) (delete i (responses (db w))))
      as Hin by (apply list_elem_of_filter; split; [done|by eapply list_elem_of_lookup_2]).
    rewrite Hgone in Hin. by apply elem_of_nil in Hin.
Qed.

Lemma delete_response_removes_pair_witness :
  let rows := [EventResponse.Row 1 2 7 "Maybe" None 100 101;
               EventResponse.Row 2 1 7 "Yes" None 102 103] in
  let w := MkWorld (set_responses (λ _, rows) club_db) 4 in
  let w' := MkWorld (set_responses (λ _, [EventResponse.Row 1 2 7 "Maybe" None 100 101])
                       club_db) 4 in
  (unique_pairs (responses (db w)) ∧ delete_response 7 1 w = (Ok (), w'))
  ∧ filter (same_key 7 1) (responses (db w')) = []
  ∧ delete_response 7 1 w' = (Raise (Http 404 "Response not found"), w').
Proof.
  intros rows w w'.
  assert (unique_pairs (responses (db w))) as Hu
    by (apply (bool_decide_unpack _); by vm_compute).
  assert (delete_response 7 1 w = (Ok (), w')) as Hrun by (by vm_compute).
  split; [done|].
  destruct (delete_response_removes_pair 7 1 w w' Hu Hrun) as (Hgone & _ & _ & _ & _ & Hagain).
  done.
Defined.

(** X4.  [delete_response] for an event that does not exist, or for a pair
    that has no row, raises 404 and leaves the world as it was; the detail
    is "Event not found" when the event is missing (whether or not a row
    for the pair exists) and "Response not found" otherwise. *)
Theorem delete_response_fails_cleanly event_id user_id w :
  events (db w) !! event_id = None
  ∨ list_find (same_key event_id user_id) (responses (db w)) = None →
  delete_response event_id user_id w =
  (Raise (Http 404 (if events (db w) !! event_id is None
                    then "Event not found" else "Response not found")), w).
Proof.
  intros Hbad. rewrite delete_response_cases.
  destruct (events (db w) !! event_id) as [ev|]; [|done].
  destruct Hbad as [? | ->]; done.
Qed.

Lemma delete_response_fails_cleanly_witness :
  delete_response 7 9 (MkWorld club_db 0)
  = (Raise (Http 404 "Response not found"), MkWorld club_db 0).
Proof.
  apply (delete_response_fails_cleanly 7 9 (MkWorld club_db 0)).
  right. by vm_compute.
Defined.

(** X5.  For an existing event and person, a valid status, and a pair
    that has no row yet: the upsert creates a row, the delete of that pair
    succeeds, and the database is then the one before the upsert. *)
Theorem upsert_then_delete_restores clock event_id resp_in w :
  is_Some (events (db w) !! event_id) →
  is_Some (users (db w) !! EventResponseCreate.user_id resp_in) →
  EventResponseCreate.status resp_in ∈ ["Yes"; "No"; "Maybe"] →
  list_find (same_key event_id (EventResponseCreate.user_id resp_in))
    (responses (db w)) = None →
  ∃ r w1 w2,
    create_or_update_response clock event_id resp_in w = (Ok r, w1)
    ∧ delete_response event_id (EventResponseCreate.user_id resp_in) w1 = (Ok (), w2)
    ∧ db w2 = db w.
Proof.
  intros Hev Hu Hs Hfind.
  rewrite (upsert_guards_pass clock _ _ _ Hev Hu Hs), Hfind. cbn zeta.
  eexists _, _, _. split; [reflexivity|].
  rewrite delete_response_cases. simpl. destruct Hev as [ev ->].
  set (r := EventResponse.Row _ _ _ _ _ _ _).
  assert (list_find (same_key event_id (EventResponseCreate.user_id resp_in))
            (responses (db w) ++ [r]) = Some (length (responses (db w)), r)) as ->.
  { apply list_find_Some. split_and!.
    - by rewrite lookup_app_r, Nat.sub_diag.
    - done.
    - intros j y Hj Hlt. rewrite lookup_app_l in Hj by done.
      apply list_find_None in Hfind. rewrite Forall_forall in Hfind.
      apply Hfind. by eapply list_elem_of_lookup_2. }
  split; [reflexivity|]. simpl. unfold set_responses. simpl.
  rewrite delete_middle, app_nil_r. by destruct w as [[] ?].
Qed.

Lemma upsert_then_delete_restores_witness :
  ∃ r w1 w2,
    create_or_update_response ticking 7 (EventResponseCreate.Body 2 "Maybe" None)
      (MkWorld club_db 0) = (Ok r, w1)
    ∧ delete_response 7 2 w1 = (Ok (), w2)
    ∧ db w2 = club_db.
Proof.
  apply (upsert_then_delete_restores ticking 7
           (EventResponseCreate.Body 2 "Maybe" None) (MkWorld club_db 0)).
  - by eexists.
  - by eexists.
  - right; right; left.
  - by vm_compute.
Defined.

(** *** Invariants of the response table *)

Lemma next_id_above rows r : r ∈ rows → EventResponse.id r < next_id rows.
Proof.
  unfold next_id. induction rows as [|x rows IH]; [by intros ?%elem_of_nil|].
  simpl. intros [->|Hin]%elem_of_cons; [lia|]. specialize (IH Hin). lia.
Qed.

Lemma next_id_positive rows : 0 < next_id rows.
Proof. unfold next_id. induction rows as [|x rows IH]; simpl; lia. Qed.

Lemma rows_keyed_upsert clock event_id resp_in w :
  rows_keyed (responses (db w)) →
  rows_keyed (responses (db (create_or_update_response clock event_id resp_in w).2)).
Proof.
  intros [Hall Hids].
  destruct (create_or_update_response clock event_id resp_in w) as [out w'] eqn:Hrun.
  simpl. destruct out as [r|err]; [|by apply upsert_raise_inv in Hrun as ->].
  destruct (upsert_ok_inv clock _ _ _ _ _ Hrun) as (Hev & Hu & Hs).
  rewrite (upsert_guards_pass clock _ _ _ Hev Hu Hs) in Hrun.
  destruct (list_find _ _) as [[i existing]|] eqn:Hfind;
    injection Hrun as <- <-; simpl.
  - apply list_find_Some in Hfind as (Hi & _ & _). split.
    + apply Forall_insert; [done|]. simpl. split; [done|].
      by apply (Forall_lookup_1 _ _ _ _ Hall Hi).
    + rewrite list_fmap_insert. simpl. rewrite list_insert_id; [done|].
      by rewrite list_lookup_fmap, Hi.
  - split.
    + apply Forall_app. split; [done|]. apply Forall_singleton. simpl.
      split; [done|apply next_id_positive].
    + rewrite fmap_app. apply NoDup_app. split_and!; [done| |apply NoDup_singleton].
      intros k (x & -> & Hx)%list_elem_of_fmap Heq%list_elem_of_singleton.
      apply next_id_above in Hx. simpl in Heq. lia.
Qed.

Lemma rows_keyed_delete rows i : rows_keyed rows → rows_keyed (delete i rows).
Proof.
  intros [Hall Hids]. split; [by apply Forall_delete|].
  rewrite list_fmap_delete. eapply sublist_NoDup; [done|apply sublist_delete].
Qed.

Lemma rows_keyed_step clock st st' :
  step clock st st' → rows_keyed (responses st) → rows_keyed (responses st').
Proof.
  intros Hstep H. destruct Hstep as
    [event_id resp_in st n out w' Hrun | event_id user_id st n out w' Hrun
    | user_id st n out w' Hrun | csv_users st | st st' Hsame].
  - pose proof (rows_keyed_upsert clock event_id resp_in (MkWorld st n) H) as Hk.
    by rewrite Hrun in Hk.
  - rewrite delete_response_cases in Hrun. simpl in Hrun.
    destruct (events st !! event_id); [|by injection Hrun as _ <-].
    destruct (list_find _ _) as [[i r]|]; injection Hrun as _ <-; [|done].
    by apply rows_keyed_delete.
  - pose proof (delete_user_responses user_id (MkWorld st n)) as Hd.
    rewrite Hrun in Hd. simpl in Hd. by rewrite Hd.
  - by destruct (sync_users_frame csv_users st) as (_ & _ & ->).
  - by rewrite Hsame.
Qed.

Lemma reachable_rows_keyed_helper clock st :
  reachable clock st → rows_keyed (responses st).
Proof.
  revert st. apply (rtc_ind_r (λ st, rows_keyed (responses st))).
  - split; [apply Forall_nil_2|apply NoDup_nil_2].
  - intros st1 st2 _ Hstep IH. by eapply rows_keyed_step.
Qed.

(** X6.  In every database reachable from the fresh schema by sequential
    operation, every response carries one of the statuses Yes, No, Maybe
    and a positive id, and no two responses share an id. *)
Theorem reachable_rows_keyed clock st :
  reachable clock st → rows_keyed (responses st).
Proof. apply reachable_rows_keyed_helper. Qed.

Lemma reachable_rows_keyed_witness :
  rows_keyed
    (responses
       (db (create_or_update_response ticking 7 (EventResponseCreate.Body 1 "Yes" None)
              (MkWorld club_db 0)).2)).
Proof. apply (reachable_rows_keyed ticking), club_after_rsvp_reachable. Defined.

Lemma stamped_serve clock w w' :
  (∀ i j, (i ≤ j)%nat → clock i ≤ clock j) →
  serve clock w w' → stamped clock w → stamped clock w'.
Proof.
  intros Hmono Hserve H. unfold stamped in *.
  destruct Hserve as [event_id resp_in w out w' Hrun
                     | event_id user_id w out w' Hrun | w w' Hsame Hticks].
  - destruct out as [r|err]; [|by apply upsert_raise_inv in Hrun as ->].
    destruct (upsert_ok_inv clock _ _ _ _ _ Hrun) as (Hev & Hu & Hs).
    rewrite (upsert_guards_pass clock _ _ _ Hev Hu Hs) in Hrun.
    assert (Forall (λ r, EventResponse.created_at r ≤ EventResponse.updated_at r
                         ∧ ∀ n, (S (ticks w) ≤ n)%nat →
                                EventResponse.updated_at r ≤ clock n)
                   (responses (db w))) as Hold.
    { eapply Forall_impl; [done|]. intros x [? Hx]. split; [done|].
      intros n Hn. apply Hx. lia. }
    destruct (list_find _ _) as [[i existing]|] eqn:Hfind;
      injection Hrun as <- <-; simpl.
    + apply list_find_Some in Hfind as (Hi & _ & _).
      apply Forall_insert; [done|]. simpl.
      destruct (Forall_lookup_1 _ _ _ _ H Hi) as [Hc Hu'].
      split; [|intros n Hn; apply Hmono; lia].
      etrans; [done|]. by apply Hu'.
    + apply Forall_app. split.
      * eapply Forall_impl; [done|]. intros x [? Hx]. split; [done|].
        intros n Hn. apply Hx. lia.
      * apply Forall_singleton. simpl.
        split; [apply Hmono; lia|intros n Hn; apply Hmono; lia].
  - rewrite delete_response_cases in Hrun.
    destruct (events (db w) !! event_id); [|by injection Hrun as _ <-].
    destruct (list_find _ _) as [[i r]|]; injection Hrun as _ <-; [|done].
    simpl. by apply Forall_delete.
  - rewrite Hsame. eapply Forall_impl; [done|]. intros x [? Hx]. split; [done|].
    intros n Hn. apply Hx. lia.
Qed.

(** X7.  With a clock that never runs backwards, after any sequence of
    requests served one after the other from the fresh schema, no response
    has an updated_at earlier than its created_at or later than the next
    clock reading. *)
Theorem served_rows_created_before_updated clock w :
  (∀ i j, (i ≤ j)%nat → clock i ≤ clock j) →
  rtc (serve clock) (MkWorld empty_store 0) w →
  Forall (λ r, EventResponse.created_at r ≤ EventResponse.updated_at r
               ∧ EventResponse.updated_at r ≤ clock (ticks w))
         (responses (db w)).
Proof.
  intros Hmono Hrun.
  assert (stamped clock w) as Hst.
  { revert w Hrun. apply (rtc_ind_r (stamped clock)).
    - apply Forall_nil_2.
    - intros w1 w2 _ Hstep IH. by eapply stamped_serve. }
  eapply Forall_impl; [done|]. intros x [? Hx]. split; [done|]. by apply Hx.
Qed.

Lemma served_rows_created_before_updated_witness :
  let w := (create_or_update_response ticking 7 (EventResponseCreate.Body 1 "No" None)
              (create_or_update_response ticking 7 (EventResponseCreate.Body 1 "Yes" None)
                 (MkWorld club_db 0)).2).2 in
  responses (db w) = [EventResponse.Row 1 1 7 "No" None 100 102]
  ∧ Forall (λ r, EventResponse.created_at r ≤ EventResponse.updated_at r
                 ∧ EventResponse.updated_at r ≤ ticking (ticks w))
           (responses (db w)).
Proof.
  intros w. split; [by vm_compute|].
  apply (served_rows_created_before_updated ticking w).
  - intros i j Hij. unfold ticking. lia.
  - eapply rtc_l; [apply (serve_other _ _ (MkWorld club_db 0)); [done|simpl; lia]|].
    eapply rtc_l; [eapply serve_upsert, surjective_pairing|].
    eapply rtc_once, serve_upsert, surjective_pairing.
Defined.

(** *** Summary totals *)

Lemma responses_summary_run event_id w ev :
  events (db w) !! event_id = Some ev →
  responses_summary event_id w =
  (Ok [("yes", count_status "Yes" (responses_of event_id (db w)));
       ("no", count_status "No" (responses_of event_id (db w)));
       ("maybe", count_status "Maybe" (responses_of event_id (db w)));
       ("mentors_attending",
        length (filter (attending (users (db w)) "mentor") (responses_of event_id (db w))));
       ("students_attending",
        length (filter (attending (users (db w)) "student") (responses_of event_id (db w))))],
   w).
Proof.
  intros Hev. unfold responses_summary. run_guard. rewrite Hev.
  unfold mbind, M_bind, read. simpl. rewrite count_attending_foldl. reflexivity.
Qed.

Lemma count_status_total rows :
  Forall (λ r, EventResponse.status r ∈ ["Yes"; "No"; "Maybe"]) rows →
  (count_status "Yes" rows + count_status "No" rows + count_status "Maybe" rows
   = length rows)%nat.
Proof.
  unfold count_status. induction 1 as [|r rows Hr _ IH]; [done|].
  rewrite !filter_cons. simpl.
  repeat apply elem_of_cons in Hr as [->|Hr]; [..|by apply elem_of_nil in Hr];
    repeat case_decide; simplify_eq; simpl; lia.
Qed.

Lemma attending_le_yes us rows :
  (length (filter (attending us "mentor") rows)
   + length (filter (attending us "student") rows)
   ≤ count_status "Yes" rows)%nat.
Proof.
  unfold count_status. induction rows as [|r rows IH]; [done|].
  rewrite !filter_cons.
  destruct (decide (attending us "mentor" r)) as [[Hy Hm]|Hm];
    destruct (decide (attending us "student" r)) as [[Hy' Hs]|Hs];
    destruct (decide (EventResponse.status r = "Yes")); simpl; try lia; try done.
  rewrite Hm in Hs. done.
Qed.

(** X8.  On a reachable database and for an existing event,
    [responses_summary] and [list_responses] both succeed and agree: yes, no
    and maybe add up to the number of listed responses, and
    mentors_attending plus students_attending never exceeds yes. *)
Theorem summary_totals clock event_id w ev :
  reachable clock (db w) →
  events (db w) !! event_id = Some ev →
  ∃ yes no maybe mentors students rows,
    responses_summary event_id w
    = (Ok [("yes", yes); ("no", no); ("maybe", maybe);
           ("mentors_attending", mentors); ("students_attending", students)], w)
    ∧ list_responses event_id w = (Ok rows, w)
    ∧ (yes + no + maybe = length rows)%nat
    ∧ (mentors + students ≤ yes)%nat.
Proof.
  intros Hreach Hev.
  rewrite (responses_summary_run _ _ _ Hev), (list_responses_run _ _ _ Hev).
  eexists _, _, _, _, _, _. split; [reflexivity|]. split; [reflexivity|].
  split; [|apply attending_le_yes].
  apply count_status_total.
  destruct (reachable_rows_keyed_helper clock _ Hreach) as [Hall _].
  apply Forall_forall. intros r [_ Hr]%list_elem_of_filter.
  rewrite Forall_forall in Hall. by destruct (Hall r Hr).
Qed.

Lemma summary_totals_witness :
  let w := (create_or_update_response ticking 7 (EventResponseCreate.Body 2 "Maybe" None)
              (create_or_update_response ticking 7 (EventResponseCreate.Body 1 "Yes" None)
                 (MkWorld club_db 0)).2).2 in
  ∃ yes no maybe mentors students rows,
    responses_summary 7 w
    = (Ok [("yes", yes); ("no", no); ("maybe", maybe);
           ("mentors_attending", mentors); ("students_attending", students)], w)
    ∧ list_responses 7 w = (Ok rows, w)
    ∧ (yes + no + maybe = length rows)%nat
    ∧ (mentors + students ≤ yes)%nat.
Proof.
  intros w.
  apply (summary_totals ticking 7 w
           (Event.Cols "Kickoff" "Season kickoff" 739000 (15, 0) 60 None None None)).
  - eapply rtc_r; [apply club_after_rsvp_reachable|].
    eapply step_upsert. apply surjective_pairing.
  - by vm_compute.
Defined.

(** ** Reconciliation, further *)

Lemma sorted_strict s : StronglySorted Z.lt (sorted s).
Proof.
  pose proof (sorted_ascending s) as Hle. pose proof (NoDup_sorted s) as Hnd.
  induction Hle as [|k ks Hle IH Hall]; [constructor|].
  apply NoDup_cons in Hnd as [Hk Hnd]. constructor; [by apply IH|].
  rewrite Forall_forall in Hall |- *. intros x Hx.
  specialize (Hall x Hx). assert (x ≠ k) by (by intros ->). lia.
Qed.

Lemma check_name_ids csv_users db_users ks acc :
  StronglySorted Z.lt ks →
  StronglySorted Z.lt (Mismatch.id <$> acc) →
  (∀ a k, a ∈ Mismatch.id <$> acc → k ∈ ks → a < k) →
  StronglySorted Z.lt (Mismatch.id <$> foldl (check_name csv_users db_users) acc ks).
Proof.
  intros Hks. revert acc. induction Hks as [|k ks Hks IH Hall]; intros acc Hacc Hlt;
    [done|]. simpl. rewrite Forall_forall in Hall.
  assert (∀ a k', a ∈ Mismatch.id <$> acc → k' ∈ ks → a < k') as Hlt'
    by (intros; apply Hlt; [done|by right]).
  apply IH.
  - unfold check_name.
    destruct (csv_users !! k) as [c|], (db_users !! k) as [d|]; try done.
    case_decide; [|done]. rewrite fmap_app. simpl.
    apply StronglySorted_app_2; [|done|repeat constructor].
    intros a b Ha ->%list_elem_of_singleton. apply Hlt; [done|left].
  - intros a k' Ha Hk'. unfold check_name in Ha.
    destruct (csv_users !! k) as [c|], (db_users !! k) as [d|]; try (by apply Hlt').
    case_decide; [|by apply Hlt']. rewrite fmap_app in Ha. simpl in Ha.
    apply elem_of_app in Ha as [Ha | ->%list_elem_of_singleton]; [by apply Hlt'|].
    by apply Hall.
Qed.

(** X9.  The validation list of [sync_users] is empty exactly when every
    id present in both the CSV and the database has equal names there; its
    entries come in strictly ascending id order (so no id is listed twice),
    and every entry has an id present on both sides and two names that
    differ. *)
Theorem validate_lists_each_conflict_once csv_users db_users :
  (validate csv_users db_users = [] ↔
   ∀ k c d, csv_users !! k = Some c → db_users !! k = Some d →
            UserDict.name c = UserDict.name d)
  ∧ StronglySorted Z.lt (Mismatch.id <$> validate csv_users db_users)
  ∧ ∀ m, m ∈ validate csv_users db_users →
         Mismatch.id m ∈ dom csv_users ∩ dom db_users
         ∧ Mismatch.csv_name m ≠ Mismatch.db_name m.
Proof.
  split_and!.
  - split.
    + intros Hv k c d Hc Hd. destruct (decide (UserDict.name c = UserDict.name d)) as [|Hne];
        [done|].
      assert (Mismatch.Entry k (UserDict.name c) (UserDict.name d)
              ∈ validate csv_users db_users) as Hin
        by (apply elem_of_validate; by exists k, c, d).
      rewrite Hv in Hin. by apply elem_of_nil in Hin.
    + intros Hall. destruct (validate csv_users db_users) as [|m ms] eqn:Hv; [done|].
      assert (m ∈ validate csv_users db_users) as Hin by (rewrite Hv; left).
      apply elem_of_validate in Hin as (k & c & d & Hc & Hd & Hne & _).
      by specialize (Hall k c d Hc Hd).
  - unfold validate. apply check_name_ids; [apply sorted_strict|constructor|].
    by intros a k ?%elem_of_nil.
  - intros m (k & c & d & Hc & Hd & Hne & ->)%elem_of_validate. simpl. split; [|done].
    apply elem_of_intersection. split; apply elem_of_dom; eauto.
Qed.

(** *** Edge: an empty CSV *)

Lemma validate_empty db_users : validate ∅ db_users = [].
Proof.
  destruct (validate ∅ db_users) as [|m ms] eqn:Hv; [done|].
  assert (m ∈ validate ∅ db_users) as Hin by (rewrite Hv; left).
  by apply elem_of_validate in Hin as (k & c & d & Hc & _).
Qed.

(** X10.  A CSV without data rows passes validation and makes [sync_users]
    delete every user: the run returns, the user table is empty afterwards,
    the other tables are as before, the delete count is the number of users
    there were, nothing is updated or inserted, and the deleted ids are
    exactly the ids the user table had.  Stated for databases in which no
    response belongs to a user the run deletes, so that the deletes involve
    table user only. *)
Theorem sync_empty_csv_deletes_everyone st :
  leavers_unanswered ∅ st →
  ∃ summary st' ops,
    sync_users ∅ st = (Returned summary, st', ops)
    ∧ users st' = ∅ ∧ same_but_users st st'
    ∧ deleted summary = size (users st)
    ∧ updated summary = 0%nat ∧ inserted summary = 0%nat
    ∧ ∀ k, OpDelete k ∈ ops ↔ is_Some (users st !! k).
Proof.
  intros _. pose proof (sync_users_frame ∅ st) as Hframe.
  rewrite (sync_users_run ∅ st (map_Forall_empty _) (validate_empty _)) in Hframe |- *.
  rewrite dom_empty_L, difference_empty_L, load_db_users_dom in *.
  assert (sorted ∅ = []) as ->.
  { apply Permutation_nil_r. by rewrite sorted_perm, elements_empty. }
  eexists _, _, _. split; [reflexivity|]. simpl. rewrite fmap_empty.
  split_and!; try done.
  - by rewrite size_dom.
  - intros k. rewrite elem_of_app, elem_of_delete_ops, list_elem_of_singleton, <-elem_of_dom.
    split.
    + intros [[(k' & ? & [= ->])|[_ ?]]|?]; done.
    + intros Hk. left. left. by exists k.
Qed.

Lemma sync_empty_csv_deletes_everyone_witness :
  ∃ summary st' ops,
    sync_users ∅ club_db = (Returned summary, st', ops)
    ∧ users st' = ∅ ∧ deleted summary = 3%nat.
Proof.
  destruct (sync_empty_csv_deletes_everyone club_db)
    as (summary & st' & ops & Hrun & Husers & _ & Hdel & _); [constructor|].
  exists summary, st', ops. split_and!; [assumption..|].
  rewrite Hdel. reflexivity.
Defined.

(** *** When a run reports that nothing changed *)

Lemma count_phase_zero_nil n (ops : list Op) :
  Forall (λ o, phase o = Some n) ops → count_phase n ops = 0%nat → ops = [].
Proof.
  unfold count_phase. destruct 1 as [|o ops Ho _]; [done|].
  rewrite filter_cons_True by done. simpl. lia.
Qed.







(** *** From the CSV rows to the database and back *)

Lemma load_csv_users_snoc rows row :
  load_csv_users (rows ++ [row]) = <[CsvRow.id row := row_dict row]> (load_csv_users rows).
Proof. unfold load_csv_users. by rewrite foldl_app. Qed.

Lemma load_csv_users_lookup rows k :
  load_csv_users rows !! k
  = row_dict <$> last (filter (λ row, CsvRow.id row = k) rows).
Proof.
  induction rows as [|row rows IH] using rev_ind; [done|].
  rewrite load_csv_users_snoc, filter_app.
  destruct (decide (CsvRow.id row = k)) as [<-|Hne].
  - rewrite lookup_insert_eq, filter_cons_True by done.
    by rewrite filter_nil, last_snoc.
  - rewrite lookup_insert_ne by done. rewrite filter_cons_False by done.
    by rewrite filter_nil, app_nil_r.
Qed.

(** X12.  [load_csv_users] keeps, for every id, the dict of the last CSV
    row with that id: an earlier row with the same id is silently
    replaced, and an id without a row is absent. *)
Theorem load_csv_users_last_row_wins rows k :
  load_csv_users rows !! k
  = row_dict <$> last (filter (λ row, CsvRow.id row = k) rows).
Proof. apply load_csv_users_lookup. Qed.



(** *** Trimming the name *)












(** ** Keyed tables in scan order *)

Lemma elem_of_rows_of {V} (tbl : gmap Z V) k v :
  (k, v) ∈ rows_of tbl ↔ tbl !! k = Some v.
Proof.
  unfold rows_of. rewrite list_elem_of_omap. split.
  - intros (k' & _ & Hk'). destruct (tbl !! k') eqn:Hl; by simplify_eq/=.
  - intros Hk. exists k. split; [|by rewrite Hk].
    rewrite merge_sort_Permutation, elem_of_elements. apply elem_of_dom. eauto.
Qed.

Lemma rows_of_keys {V} (tbl : gmap Z V) : (rows_of tbl).*1 = sorted (dom tbl).
Proof.
  unfold rows_of, sorted.
  assert (∀ ks : list Z, (∀ k, k ∈ ks → is_Some (tbl !! k)) →
            (omap (λ k, pair k <$> tbl !! k) ks).*1 = ks) as Hall.
  { induction ks as [|k ks IH]; intros Hks; [done|]. simpl.
    destruct (Hks k) as [v Hv]; [left|]. rewrite Hv. simpl. f_equal.
    apply IH. intros; apply Hks; by right. }
  apply Hall. intros k. rewrite merge_sort_Permutation, elem_of_elements.
  by apply elem_of_dom.
Qed.

Lemma type_named_Some name tbl k :
  type_named name tbl = Some k →
  ∃ row, tbl !! k = Some row ∧ EventType.name row = name.
Proof.
  unfold type_named. fold (rows_of tbl).
  destruct (list_find _ _) as [[i [k' row]]|] eqn:Hfind; [|done].
  simpl. intros [= <-]. apply list_find_Some in Hfind as (Hi & Hname & _).
  exists row. split; [|done]. apply elem_of_rows_of. by eapply list_elem_of_lookup_2.
Qed.

Lemma type_named_None name tbl :
  type_named name tbl = None ↔ ∀ k row, tbl !! k = Some row → EventType.name row ≠ name.
Proof.
  unfold type_named. fold (rows_of tbl). rewrite fmap_None, list_find_None, Forall_forall.
  split.
  - intros H k row Hk. apply (H (k, row)). by apply elem_of_rows_of.
  - intros H [k row] Hk%elem_of_rows_of. by apply (H k row).
Qed.

Lemma next_key_fresh {V} (tbl : gmap Z V) : tbl !! next_key tbl = None.
Proof.
  apply not_elem_of_dom. intros Hin. apply elem_of_elements in Hin.
  unfold next_key in Hin.
  assert (∀ ks : list Z, ∀ k, k ∈ ks → k ≤ foldr Z.max 0 ks) as Hmax.
  { induction ks as [|x ks IH]; intros k; [by intros ?%elem_of_nil|].
    simpl. intros [->|Hk]%elem_of_cons; [lia|]. specialize (IH k Hk). lia. }
  apply Hmax in Hin. lia.
Qed.

Lemma next_key_positive {V} (tbl : gmap Z V) : 0 < next_key tbl.
Proof.
  unfold next_key. generalize (elements (dom tbl)).
  induction l as [|x ks IH]; simpl; lia.
Qed.

(** ** Resetting the database *)

Lemma reset_database_db argv ts today d :
  db_file (reset_database argv ts today d).1 = Some (seeded argv today).
Proof. unfold reset_database, seeded. by destruct (db_file d). Qed.

Lemma seed_event_frame today st s :
  users (seed_event today st s) = users st
  ∧ event_types (seed_event today st s) = event_types st
  ∧ responses (seed_event today st s) = responses st.
Proof.
  unfold seed_event. destruct s as [[[[[[[? ?] ?] ?] ?] ?] ty] ?].
  by destruct (type_named ty (event_types st)).
Qed.

Lemma seed_events_frame today st ss :
  users (foldl (seed_event today) st ss) = users st
  ∧ event_types (foldl (seed_event today) st ss) = event_types st
  ∧ responses (foldl (seed_event today) st ss) = responses st.
Proof.
  revert st. induction ss as [|s ss IH]; intros st; [done|]. simpl.
  destruct (IH (seed_event today st s)) as (-> & -> & ->). apply seed_event_frame.
Qed.

Lemma seeded_frame argv today :
  users (seeded argv today) = ∅
  ∧ event_types (seeded argv today) = foldl seed_type ∅ default_types
  ∧ responses (seeded argv today) = [].
Proof.
  unfold seeded. destruct argv as [|prog [|flag rest]]; try done.
  destruct (bool_decide _); [|done]. apply seed_events_frame.
Qed.

(** X15.  [reset_database] always leaves a database file, and what it
    holds depends on the arguments and the date only, not on the earlier
    database, the backups or the time of day: no users, no responses, and
    exactly the five default event types with ids 1 to 5 in the order of
    the source.  The CSV files are not touched. *)
Theorem reset_database_starts_afresh argv ts today d :
  ∃ st, db_file (reset_database argv ts today d).1 = Some st
    ∧ (∀ ts' d', db_file (reset_database argv ts' today d').1 = Some st)
    ∧ users st = ∅ ∧ responses st = []
    ∧ rows_of (event_types st)
      = [(1, EventType.Cols "Competition" (Some "#e74c3c"));
         (2, EventType.Cols "Training" (Some "#3498db"));
         (3, EventType.Cols "Meeting" (Some "#2ecc71"));
         (4, EventType.Cols "Outreach" (Some "#f1c40f"));
         (5, EventType.Cols "Other" (Some "#95a5a6"))]
    ∧ csv_files (reset_database argv ts today d).1 = csv_files d.
Proof.
  exists (seeded argv today). destruct (seeded_frame argv today) as (Hu & Ht & Hr).
  split_and!; try done.
  - apply reset_database_db.
  - intros. apply reset_database_db.
  - rewrite Ht. by vm_compute.
  - unfold reset_database. by destruct (db_file d).
Qed.

(** X16.  [reset_database] writes at most the backup named by its
    timestamp: every other backup is kept; the one at the timestamp is the
    earlier database when there was one (replacing a backup of that name)
    and is left alone otherwise.  Without an earlier database nothing is
    copied or unlinked: of the observable steps only the schema creation
    happens.  A second reset within the same second overwrites the backup
    of the first: the backup then holds the freshly seeded database, not
    the original one. *)
Theorem reset_backup_by_timestamp argv ts today d :
  (∀ ts', ts' ≠ ts →
     backups (reset_database argv ts today d).1 !! ts' = backups d !! ts')
  ∧ backups (reset_database argv ts today d).1 !! ts
    = (if db_file d is Some st then Some st else backups d !! ts)
  ∧ (db_file d = None → (reset_database argv ts today d).2 = [EffCreateAll])
  ∧ backups (reset_database argv ts today (reset_database argv ts today d).1).1 !! ts
    = Some (seeded argv today).
Proof.
  split_and!.
  - intros ts' Hne. unfold reset_database. destruct (db_file d); [|done].
    simpl. by rewrite lookup_insert_ne.
  - unfold reset_database. destruct (db_file d); [|done]. simpl.
    by rewrite lookup_insert_eq.
  - intros Hd. unfold reset_database. by rewrite Hd.
  - pose proof (reset_database_db argv ts today d) as Hdb.
    unfold reset_database at 1. rewrite Hdb. simpl. by rewrite lookup_insert_eq.
Qed.

Lemma reset_database_effects argv ts today d :
  (reset_database argv ts today d).2
  = if db_file d is Some _ then [EffBackup ts; EffUnlink; EffCreateAll]
    else [EffCreateAll].
Proof. unfold reset_database. by destruct (db_file d). Qed.

Lemma sample_flag_not_force flag :
  flag ∈ ["--sample"; "-s"] → flag ∈ ["-y"; "--yes"] → False.
Proof.
  intros Hs Hy%(bool_decide_pack _).
  repeat (apply elem_of_cons in Hs as [-> | Hs]; [by vm_compute in Hy|]).
  by apply elem_of_nil in Hs.
Qed.

Lemma seeded_events argv today :
  events (seeded argv today) ≠ ∅ →
  ∃ flag, argv !! 1%nat = Some flag ∧ flag ∈ ["--sample"; "-s"].
Proof.
  unfold seeded. destruct argv as [|prog [|flag rest]]; try done.
  case_bool_decide; [|done]. intros _. by exists flag.
Qed.

(** X17.  The force flag and the sample flag are both read from the first
    argument, so a forced reset never seeds sample events: with -y or --yes
    the database is rebuilt without a prompt and has no events, whatever
    the later arguments are.  With --sample or -s first, the prompt is
    shown, and after a confirming answer the database holds the two sample
    events with ids 1 and 2. *)
Theorem forced_reset_never_seeds_samples argv stdin ts today d :
  (forced argv = true →
     db_file (reset_main argv stdin ts today d).1 = Some (seeded argv today)
     ∧ events (seeded argv today) = ∅
     ∧ ∀ m, EffPrompt m ∉ (reset_main argv stdin ts today d).2)
  ∧ (∀ flag, argv !! 1%nat = Some flag → flag ∈ ["--sample"; "-s"] →
       startswith (lower stdin) "y" = true →
       db_file (reset_main argv stdin ts today d).1 = Some (seeded argv today)
       ∧ (rows_of (events (seeded argv today))).*1 = [1; 2]
       ∧ EffPrompt reset_prompt ∈ (reset_main argv stdin ts today d).2).
Proof.
  rewrite reset_main_unfold. cbn zeta. unfold reset_confirms. split.
  - intros Hf. rewrite Hf. simpl. split_and!.
    + apply reset_database_db.
    + destruct (decide (events (seeded argv today) = ∅)) as [|Hne]; [done|].
      destruct (seeded_events _ _ Hne) as (flag & Hflag & Hs).
      unfold forced in Hf. rewrite Hflag in Hf. apply bool_decide_eq_true in Hf.
      by destruct (sample_flag_not_force flag).
    + intros m Hm. rewrite reset_database_effects in Hm.
      destruct (db_file d);
        repeat (apply elem_of_cons in Hm as [Hm|Hm]; [done|]);
        by apply elem_of_nil in Hm.
  - intros flag Hflag Hs Hy.
    assert (forced argv = false) as Hf.
    { unfold forced. rewrite Hflag. apply bool_decide_eq_false.
      intros Hforce. by destruct (sample_flag_not_force flag). }
    rewrite Hf, Hy. simpl. split_and!.
    + apply reset_database_db.
    + unfold seeded. destruct argv as [|prog [|flag' rest]]; try done.
      simpl in Hflag. injection Hflag as ->.
      rewrite bool_decide_eq_true_2 by done. by vm_compute.
    + left.
Qed.

(** *** Seeding the default event types *)

Lemma seed_type_keeps tbl nc k row :
  tbl !! k = Some row → seed_type tbl nc !! k = Some row.
Proof.
  intros Hk. unfold seed_type. destruct (type_named _ _); [done|].
  rewrite lookup_insert_ne; [done|]. intros Heq.
  pose proof (next_key_fresh tbl) as Hfresh. rewrite Heq in Hfresh. congruence.
Qed.

Lemma seed_type_fixed tbl nc :
  (∃ k row, tbl !! k = Some row ∧ EventType.name row = nc.1) → seed_type tbl nc = tbl.
Proof.
  intros (k & row & Hk & Hname). unfold seed_type.
  destruct (type_named nc.1 tbl) eqn:Hfind; [done|].
  rewrite type_named_None in Hfind. by destruct (Hfind k row Hk).
Qed.

Lemma seed_type_present tbl nc :
  ∃ k row, seed_type tbl nc !! k = Some row ∧ EventType.name row = nc.1.
Proof.
  unfold seed_type. destruct (type_named nc.1 tbl) as [k|] eqn:Hfind.
  - destruct (type_named_Some _ _ _ Hfind) as (row & ? & ?). by exists k, row.
  - eexists _, _. split; [apply lookup_insert_eq|done].
Qed.

Lemma seed_types_keep tbl ncs k row :
  tbl !! k = Some row → foldl seed_type tbl ncs !! k = Some row.
Proof.
  revert tbl. induction ncs as [|nc ncs IH]; intros tbl Hk; [done|].
  simpl. by apply IH, seed_type_keeps.
Qed.

Lemma seed_types_present tbl ncs nc :
  nc ∈ ncs →
  ∃ k row, foldl seed_type tbl ncs !! k = Some row ∧ EventType.name row = nc.1.
Proof.
  revert tbl. induction ncs as [|x ncs IH]; intros tbl Hin; [by apply elem_of_nil in Hin|].
  simpl. apply elem_of_cons in Hin as [->|Hin]; [|by apply IH].
  destruct (seed_type_present tbl x) as (k & row & Hk & Hname).
  exists k, row. split; [by apply seed_types_keep|done].
Qed.

Lemma seed_types_fixed tbl ncs :
  (∀ nc, nc ∈ ncs → ∃ k row, tbl !! k = Some row ∧ EventType.name row = nc.1) →
  foldl seed_type tbl ncs = tbl.
Proof.
  induction ncs as [|nc ncs IH]; intros Hall; [done|]. simpl.
  rewrite seed_type_fixed by (apply Hall; left). apply IH.
  intros; apply Hall; by right.
Qed.

(** X18.  Seeding event types by name ([reset_database], lines 42-45) on
    any event-type table keeps every existing row, makes every seeded name
    present, adds at most one row per name, and changes nothing when run a
    second time. *)
Theorem seeding_types_is_idempotent tbl ncs :
  (∀ k row, tbl !! k = Some row → foldl seed_type tbl ncs !! k = Some row)
  ∧ (∀ nc, nc ∈ ncs →
       ∃ k row, foldl seed_type tbl ncs !! k = Some row ∧ EventType.name row = nc.1)
  ∧ foldl seed_type (foldl seed_type tbl ncs) ncs = foldl seed_type tbl ncs
  ∧ (size (foldl seed_type tbl ncs) ≤ size tbl + length ncs)%nat.
Proof.
  split_and!.
  - intros k row. apply seed_types_keep.
  - intros nc. apply seed_types_present.
  - apply seed_types_fixed. intros nc. apply seed_types_present.
  - revert tbl. induction ncs as [|nc ncs IH]; intros tbl; simpl; [lia|].
    etrans; [apply IH|]. unfold seed_type. destruct (type_named _ _); [lia|].
    rewrite map_size_insert_None by apply next_key_fresh. lia.
Qed.

Lemma forced_reset_never_seeds_samples_witness :
  events (seeded ["reset_db.py"; "-y"; "--sample"] 739000) = ∅
  ∧ (rows_of (events (seeded ["reset_db.py"; "--sample"] 739000))).*1 = [1; 2].
Proof.
  destruct (forced_reset_never_seeds_samples ["reset_db.py"; "-y"; "--sample"] ""
              20261104 739000 roster_disk) as [Hforced _].
  destruct (forced_reset_never_seeds_samples ["reset_db.py"; "--sample"] "y"
              20261104 739000 roster_disk) as [_ Hasked].
  destruct Hforced as (_ & Hev & _); [by vm_compute|].
  destruct (Hasked "--sample") as (_ & Hev' & _); [reflexivity|left|by vm_compute|].
  exact (conj Hev Hev').
Defined.

(** ** Events *)

Lemma bind_raise {A B} (m : M A) (f : A → M B) w e w' :
  m w = (Raise e, w') → (m ≫= f) w = (Raise e, w').
Proof. intros H. unfold mbind, M_bind. by rewrite H. Qed.


Lemma check_schedule_ok types event_in w :
  event_body_ok types event_in →
  ∃ date start_time m,
    EventCreate.date event_in = Some date
    ∧ EventCreate.start_time event_in = Some start_time
    ∧ EventCreate.duration_minutes event_in = Some m ∧ 0 < m
    ∧ check_schedule event_in w = (Ok (date, start_time, m), w).
Proof.
  intros ([date Hd] & [start Hs] & (m & Hm & Hpos) & _).
  exists date, start, m. unfold check_schedule. rewrite Hd, Hs, Hm.
  rewrite decide_False by lia. done.
Qed.

Lemma resolve_type_ok event_in w :
  event_body_ok (event_types (db w)) event_in →
  resolve_type event_in w = (Ok (settled_type (event_types (db w)) event_in), w).
Proof.
  intros (_ & _ & _ & Ht). unfold resolve_type, settled_type.
  destruct (EventCreate.event_type_id event_in) as [i|].
  - unfold mbind, M_bind, read. simpl. by destruct Ht as [et ->].
  - destruct (EventCreate.event_type event_in) as [name|]; [|done].
    case_decide; [done|]. destruct Ht as [?|[k Hk]]; [done|].
    unfold mbind, M_bind, read. simpl. by rewrite Hk.
Qed.

Lemma checks_fail event_in w :
  ¬ event_body_ok (event_types (db w)) event_in →
  (∃ msg, check_schedule event_in w = (Raise (Http 400 msg), w))
  ∨ (∃ v, check_schedule event_in w = (Ok v, w))
    ∧ ∃ msg, resolve_type event_in w = (Raise (Http 400 msg), w).
Proof.
  intros Hbad. unfold check_schedule.
  destruct (EventCreate.date event_in) as [date|] eqn:Hd; [|left; by eexists].
  destruct (EventCreate.start_time event_in) as [start|] eqn:Hs; [|left; by eexists].
  destruct (EventCreate.duration_minutes event_in) as [m|] eqn:Hm; [|left; by eexists].
  case_decide as Hpos; [left; by eexists|]. right. split; [by eexists|].
  unfold resolve_type.
  destruct (EventCreate.event_type_id event_in) as [i|] eqn:Hi.
  - unfold mbind, M_bind, read. simpl.
    destruct (event_types (db w) !! i) as [et|] eqn:Het; [|by eexists].
    destruct Hbad. unfold event_body_ok. rewrite Hd, Hs, Hm, Hi, Het.
    split_and!; eauto. exists m. split; [done|lia].
  - destruct (EventCreate.event_type event_in) as [name|] eqn:Hn.
    + case_decide as Hempty.
      * destruct Hbad. unfold event_body_ok. rewrite Hd, Hs, Hm, Hi, Hn.
        split_and!; eauto. exists m. split; [done|lia].
      * unfold mbind, M_bind, read. simpl.
        destruct (type_named name (event_types (db w))) as [k|] eqn:Hk; [|by eexists].
        destruct Hbad. unfold event_body_ok. rewrite Hd, Hs, Hm, Hi, Hn, Hk.
        split_and!; eauto. exists m. split; [done|lia].
    + destruct Hbad. unfold event_body_ok. rewrite Hd, Hs, Hm, Hi, Hn.
      split_and!; eauto. exists m. split; [done|lia].
Qed.

Lemma create_event_ok event_in w :
  event_body_ok (event_types (db w)) event_in →
  ∃ date start_time m,
    EventCreate.date event_in = Some date
    ∧ EventCreate.start_time event_in = Some start_time
    ∧ EventCreate.duration_minutes event_in = Some m ∧ 0 < m
    ∧ let ev := event_of event_in date start_time m
                  (settled_type (event_types (db w)) event_in) in
      let k := next_key (events (db w)) in
      create_event event_in w
      = (Ok (event_read (event_types (db w)) k ev),
         MkWorld (set_events (insert k ev) (db w)) (ticks w)).
Proof.
  intros Hok. destruct (check_schedule_ok _ _ w Hok) as (date & start & m & Hd & Hs & Hm & Hpos & Hcheck).
  exists date, start, m. split_and!; try done. cbn zeta.
  unfold create_event. rewrite (bind_ok _ _ _ _ _ Hcheck).
  rewrite (bind_ok _ _ _ _ _ (resolve_type_ok _ _ Hok)). reflexivity.
Qed.

Lemma create_event_bad event_in w :
  ¬ event_body_ok (event_types (db w)) event_in →
  ∃ msg, create_event event_in w = (Raise (Http 400 msg), w).
Proof.
  intros Hbad. unfold create_event.
  destruct (checks_fail _ _ Hbad) as [[msg Hc]|[[[[date start] m] Hc] [msg Hr]]].
  - exists msg. by rewrite (bind_raise _ _ _ _ _ Hc).
  - exists msg. rewrite (bind_ok _ _ _ _ _ Hc). by rewrite (bind_raise _ _ _ _ _ Hr).
Qed.

Lemma list_events_run w :
  list_events w
  = (Ok ((λ kv, event_read (event_types (db w)) kv.1 kv.2) <$> rows_of (events (db w))), w).
Proof. reflexivity. Qed.

Lemma settled_type_exists types event_in t :
  event_body_ok types event_in → settled_type types event_in = Some t →
  is_Some (types !! t).
Proof.
  intros (_ & _ & _ & Ht). unfold settled_type.
  destruct (EventCreate.event_type_id event_in) as [i|]; [by intros [= <-]|].
  destruct (EventCreate.event_type event_in) as [name|]; [|done].
  case_decide; [done|]. intros (row & Hrow & _)%type_named_Some. eauto.
Qed.

(** X19.  For a body with date, start time, a positive duration and an
    event type that exists (by id, or else by non-empty name; none is fine),
    [create_event] succeeds: the event gets a fresh positive id, every other
    event and every other table is unchanged, the returned view carries the
    body's fields, the type id of the body when it gives one, and in any
    case a type that exists; [list_events] then lists that very view. *)
Theorem create_event_then_list event_in w :
  event_body_ok (event_types (db w)) event_in →
  ∃ view w' views,
    create_event event_in w = (Ok view, w')
    ∧ list_events w' = (Ok views, w') ∧ view ∈ views
    ∧ events (db w) !! EventRead.id view = None ∧ 0 < EventRead.id view
    ∧ (∀ k, k ≠ EventRead.id view → events (db w') !! k = events (db w) !! k)
    ∧ users (db w') = users (db w) ∧ event_types (db w') = event_types (db w)
    ∧ responses (db w') = responses (db w) ∧ ticks w' = ticks w
    ∧ EventRead.title view = EventCreate.title event_in
    ∧ EventRead.description view = EventCreate.description event_in
    ∧ Some (EventRead.date view) = EventCreate.date event_in
    ∧ Some (EventRead.start_time view) = EventCreate.start_time event_in
    ∧ Some (EventRead.duration_minutes view) = EventCreate.duration_minutes event_in
    ∧ 0 < EventRead.duration_minutes view
    ∧ EventRead.location view = EventCreate.location event_in
    ∧ EventRead.link view = EventCreate.link event_in
    ∧ (∀ i, EventCreate.event_type_id event_in = Some i →
            EventRead.event_type_id view = Some i)
    ∧ (∀ t, EventRead.event_type_id view = Some t →
            is_Some (event_types (db w) !! t)).
Proof.
  intros Hok.
  destruct (create_event_ok _ _ Hok) as (date & start & m & Hd & Hs & Hm & Hpos & Hrun).
  cbn zeta in Hrun. rewrite Hrun.
  eexists _, _, _. split; [reflexivity|]. split; [apply list_events_run|]. simpl.
  split_and!; try done.
  - apply list_elem_of_fmap. eexists (_, _). split; [reflexivity|].
    apply elem_of_rows_of. apply lookup_insert_eq.
  - apply next_key_fresh.
  - apply next_key_positive.
  - intros k Hk. by rewrite lookup_insert_ne.
  - intros i Hi. unfold settled_type. by rewrite Hi.
  - intros t. by apply settled_type_exists.
Qed.

(** X20.  For a body that lacks date, start time or duration, has a
    duration that is not positive, or names an event type (by id, or else
    by non-empty name) that does not exist, [create_event] raises 400 and
    leaves the world as it was. *)
Theorem create_event_rejects event_in w :
  ¬ event_body_ok (event_types (db w)) event_in →
  ∃ msg, create_event event_in w = (Raise (Http 400 msg), w).
Proof. apply create_event_bad. Qed.

Lemma update_event_ok event_id event_in w old :
  events (db w) !! event_id = Some old →
  event_body_ok (event_types (db w)) event_in →
  ∃ date start_time m,
    EventCreate.date event_in = Some date
    ∧ EventCreate.start_time event_in = Some start_time
    ∧ EventCreate.duration_minutes event_in = Some m ∧ 0 < m
    ∧ let ev := event_of event_in date start_time m
                  (settled_type (event_types (db w)) event_in) in
      update_event event_id event_in w
      = (Ok (event_read (event_types (db w)) event_id ev),
         MkWorld (set_events (insert event_id ev) (db w)) (ticks w)).
Proof.
  intros Hold Hok.
  destruct (check_schedule_ok _ _ w Hok) as (date & start & m & Hd & Hs & Hm & Hpos & Hcheck).
  exists date, start, m. split_and!; try done. cbn zeta.
  unfold update_event. run_guard. rewrite Hold.
  rewrite (bind_ok _ _ _ _ _ Hcheck).
  rewrite (bind_ok _ _ _ _ _ (resolve_type_ok _ _ Hok)). reflexivity.
Qed.

Lemma update_event_bad event_id event_in w old :
  events (db w) !! event_id = Some old →
  ¬ event_body_ok (event_types (db w)) event_in →
  ∃ msg, update_event event_id event_in w = (Raise (Http 400 msg), w).
Proof.
  intros Hold Hbad. unfold update_event. run_guard. rewrite Hold.
  destruct (checks_fail _ _ Hbad) as [[msg Hc]|[[[[date start] m] Hc] [msg Hr]]].
  - exists msg. by rewrite (bind_raise _ _ _ _ _ Hc).
  - exists msg. rewrite (bind_ok _ _ _ _ _ Hc). by rewrite (bind_raise _ _ _ _ _ Hr).
Qed.

Lemma update_event_missing event_id event_in w :
  events (db w) !! event_id = None →
  update_event event_id event_in w = (Raise (Http 404 "Event not found"), w).
Proof. intros Hnone. unfold update_event. run_guard. by rewrite Hnone. Qed.

(** X21.  [update_event] answers 404 for an unknown id and 400 for a body
    that the checks reject, changing nothing in either case.  For an
    existing event and an accepted body it succeeds: the view has the id of
    the path, the set of event ids is unchanged, every other event and
    every other table is unchanged, the view carries the body's title and
    duration, and repeating the same request returns the same view and
    changes nothing more. *)
Theorem update_event_in_place event_id event_in w :
  (events (db w) !! event_id = None →
   update_event event_id event_in w = (Raise (Http 404 "Event not found"), w))
  ∧ (is_Some (events (db w) !! event_id) →
     ¬ event_body_ok (event_types (db w)) event_in →
     ∃ msg, update_event event_id event_in w = (Raise (Http 400 msg), w))
  ∧ (is_Some (events (db w) !! event_id) →
     event_body_ok (event_types (db w)) event_in →
     ∃ view w',
       update_event event_id event_in w = (Ok view, w')
       ∧ EventRead.id view = event_id
       ∧ dom (events (db w')) = dom (events (db w))
       ∧ (∀ k, k ≠ event_id → events (db w') !! k = events (db w) !! k)
       ∧ users (db w') = users (db w) ∧ event_types (db w') = event_types (db w)
       ∧ responses (db w') = responses (db w)
       ∧ EventRead.title view = EventCreate.title event_in
       ∧ Some (EventRead.duration_minutes view) = EventCreate.duration_minutes event_in
       ∧ update_event event_id event_in w' = (Ok view, w')).
Proof.
  split_and!.
  - apply update_event_missing.
  - intros [old Hold]. by apply update_event_bad with old.
  - intros [old Hold] Hok.
    destruct (update_event_ok _ _ _ _ Hold Hok)
      as (date & start & m & Hd & Hs & Hm & Hpos & Hrun).
    cbn zeta in Hrun. rewrite Hrun. eexists _, _. split; [reflexivity|]. simpl.
    split_and!; try done.
    + rewrite dom_insert_L. apply elem_of_dom_2 in Hold.
      apply set_eq. intros k. rewrite elem_of_union, elem_of_singleton.
      split; [by intros [->|?]|by right].
    + intros k Hk. by rewrite lookup_insert_ne.
    + set (w' := MkWorld _ _).
      destruct (update_event_ok event_id event_in w'
                  (event_of event_in date start m
                     (settled_type (event_types (db w)) event_in)))
        as (date' & start' & m' & Hd' & Hs' & Hm' & _ & Hrun'); [apply lookup_insert_eq|done|].
      cbn zeta in Hrun'. rewrite Hrun'. simplify_eq. simpl.
      f_equal. unfold w', set_events. simpl. by rewrite insert_insert_eq.
Qed.

(** *** What the event table always satisfies *)

Lemma events_well_formed_insert st k ev :
  events_well_formed st →
  0 < Event.duration_minutes ev →
  (∀ t, Event.event_type_id ev = Some t → is_Some (event_types st !! t)) →
  events_well_formed (set_events (insert k ev) st).
Proof. intros Hwf Hd Ht. unfold events_well_formed. simpl. by apply map_Forall_insert_2. Qed.

Lemma event_body_ok_dec types event_in :
  event_body_ok types event_in ∨ ¬ event_body_ok types event_in.
Proof.
  unfold event_body_ok.
  destruct (EventCreate.date event_in) as [date|]; [|right; by intros ([? ?] & _)].
  destruct (EventCreate.start_time event_in) as [start|];
    [|right; by intros (_ & [? ?] & _)].
  destruct (EventCreate.duration_minutes event_in) as [m|];
    [|right; by intros (_ & _ & (? & ? & _) & _)].
  destruct (decide (0 < m)) as [Hm|Hm];
    [|right; intros (_ & _ & (? & [= <-] & ?) & _); lia].
  assert (∀ P : Prop, P ∨ ¬ P →
            (is_Some (Some date) ∧ is_Some (Some start)
             ∧ (∃ m0, Some m = Some m0 ∧ 0 < m0) ∧ P)
            ∨ ¬ (is_Some (Some date) ∧ is_Some (Some start)
                 ∧ (∃ m0, Some m = Some m0 ∧ 0 < m0) ∧ P)) as Hlast.
  { intros P [HP|HP]; [left|right; by intros (_ & _ & _ & ?)].
    split_and!; eauto. }
  apply Hlast.
  destruct (EventCreate.event_type_id event_in) as [i|].
  - destruct (types !! i); [left; eauto|right; by intros [? ?]].
  - destruct (EventCreate.event_type event_in) as [name|]; [|by left].
    destruct (decide (name = "")); [left; by left|].
    destruct (type_named name types); [left; right; eauto|].
    right. by intros [?|[? ?]].
Qed.

Lemma create_event_well_formed event_in w :
  events_well_formed (db w) → events_well_formed (db (create_event event_in w).2).
Proof.
  intros Hwf. destruct (event_body_ok_dec (event_types (db w)) event_in) as [Hok|Hbad].
  - destruct (create_event_ok _ _ Hok) as (date & start & m & _ & _ & _ & Hpos & Hrun).
    cbn zeta in Hrun. rewrite Hrun. simpl.
    apply events_well_formed_insert; [done..|].
    intros t. by apply settled_type_exists.
  - by destruct (create_event_bad _ _ Hbad) as [msg ->].
Qed.

Lemma update_event_well_formed event_id event_in w :
  events_well_formed (db w) →
  events_well_formed (db (update_event event_id event_in w).2).
Proof.
  intros Hwf. destruct (events (db w) !! event_id) as [old|] eqn:Hold;
    [|by rewrite update_event_missing].
  destruct (event_body_ok_dec (event_types (db w)) event_in) as [Hok|Hbad].
  - destruct (update_event_ok _ _ _ _ Hold Hok)
      as (date & start & m & _ & _ & _ & Hpos & Hrun).
    cbn zeta in Hrun. rewrite Hrun. simpl.
    apply events_well_formed_insert; [done..|].
    intros t. by apply settled_type_exists.
  - by destruct (update_event_bad _ _ _ _ Hold Hbad) as [msg ->].
Qed.

Lemma delete_event_cases event_id w :
  delete_event event_id w =
  match events (db w) !! event_id with
  | None => (Raise (Http 404 "Event not found"), w)
  | Some _ => (Ok (), MkWorld (set_events (delete event_id) (db w)) (ticks w))
  end.
Proof. unfold delete_event. run_guard. by destruct (events (db w) !! event_id). Qed.

Lemma events_well_formed_step st st' :
  event_step st st' → events_well_formed st → events_well_formed st'.
Proof.
  intros Hstep Hwf. destruct Hstep as
    [event_in w out w' Hrun | event_id event_in w out w' Hrun
    | event_id w out w' Hrun | st st' Hev Hty].
  - pose proof (create_event_well_formed event_in w Hwf) as H. by rewrite Hrun in H.
  - pose proof (update_event_well_formed event_id event_in w Hwf) as H.
    by rewrite Hrun in H.
  - rewrite delete_event_cases in Hrun.
    destruct (events (db w) !! event_id); injection Hrun as _ <-; [|done].
    unfold events_well_formed. simpl. by apply map_Forall_delete.
  - unfold events_well_formed in *. rewrite Hev.
    eapply map_Forall_impl; [done|]. intros k ev [Hd Ht]. split; [done|].
    intros t Het. destruct (Ht t Het) as [row Hrow]. exists row.
    by eapply lookup_weaken.
Qed.

(** X22.  Event requests and operations that leave the events alone and
    drop no event type keep the event table well formed: every event lasts
    a positive number of minutes and names an existing event type if it
    names one.  On such a database every view of [list_events] has a
    positive duration, and a view with a type id has a resolved type name
    unless the id is 0 (which the handler reads as no type). *)
Theorem events_stay_well_formed st st' :
  events_well_formed st → rtc event_step st st' →
  events_well_formed st'
  ∧ ∀ w views, db w = st' → list_events w = (Ok views, w) →
      ∀ view, view ∈ views →
        0 < EventRead.duration_minutes view
        ∧ ∀ t, EventRead.event_type_id view = Some t →
               if decide (t = 0) then EventRead.event_type_name view = None
               else is_Some (EventRead.event_type_name view).
Proof.
  intros Hwf Hrun.
  assert (events_well_formed st') as Hwf'.
  { induction Hrun as [|st1 st2 st3 Hstep _ IH]; [done|].
    by apply IH, (events_well_formed_step st1). }
  split; [done|]. intros w views <- Hlist view Hview.
  rewrite list_events_run in Hlist. injection Hlist as <-.
  apply list_elem_of_fmap in Hview as ([k ev] & -> & Hkev%elem_of_rows_of).
  destruct (Hwf' k ev Hkev) as [Hd Ht]. simpl. split; [done|].
  intros t Het. rewrite Het. case_decide; [done|].
  destruct (Ht t Het) as [row ->]. by eexists.
Qed.

(** X23.  Deleting an existing event that has no responses succeeds,
    removes exactly that event and leaves users and event types alone;
    from then on deleting or updating it, listing or summarising its
    responses, and responding to it all answer 404 "Event not found" and
    change nothing. *)
Theorem delete_event_then_not_found clock event_id w resp_in event_in :
  is_Some (events (db w) !! event_id) →
  responses_of event_id (db w) = [] →
  ∃ w', delete_event event_id w = (Ok (), w')
    ∧ events (db w') = delete event_id (events (db w))
    ∧ users (db w') = users (db w) ∧ event_types (db w') = event_types (db w)
    ∧ delete_event event_id w' = (Raise (Http 404 "Event not found"), w')
    ∧ update_event event_id event_in w' = (Raise (Http 404 "Event not found"), w')
    ∧ list_responses event_id w' = (Raise (Http 404 "Event not found"), w')
    ∧ responses_summary event_id w' = (Raise (Http 404 "Event not found"), w')
    ∧ create_or_update_response clock event_id resp_in w'
      = (Raise (Http 404 "Event not found"), w').
Proof.
  intros [ev Hev] _. rewrite delete_event_cases, Hev.
  eexists. split; [reflexivity|]. set (w' := MkWorld _ _).
  assert (events (db w') !! event_id = None) as Hgone by apply lookup_delete_eq.
  split_and!; try done.
  - by rewrite delete_event_cases, Hgone.
  - by apply update_event_missing.
  - unfold list_responses. run_guard. by rewrite Hgone.
  - unfold responses_summary. run_guard. by rewrite Hgone.
  - unfold create_or_update_response. run_guard. by rewrite Hgone.
Qed.

Lemma delete_event_then_not_found_witness :
  ∃ w', delete_event 7 (MkWorld club_db 0) = (Ok (), w')
    ∧ list_responses 7 w' = (Raise (Http 404 "Event not found"), w').
Proof.
  destruct (delete_event_then_not_found ticking 7 (MkWorld club_db 0)
              (EventResponseCreate.Body 1 "Yes" None)
              (EventCreate.Body "t" "d" None None None None None None None))
    as (w' & Hrun & _ & _ & _ & _ & _ & Hlist & _).
  - by eexists.
  - by vm_compute.
  - by exists w'.
Defined.


Lemma outreach_day_ok :
  event_body_ok (event_types (seeded ["reset_db.py"] 739000)) outreach_day.
Proof.
  split_and!; [by eexists..| |].
  - exists 120. split; [done|lia].
  - right. exists 4. by vm_compute.
Qed.

Lemma create_event_then_list_witness :
  ∃ view w' views,
    create_event outreach_day (MkWorld (seeded ["reset_db.py"] 739000) 0) = (Ok view, w')
    ∧ list_events w' = (Ok views, w') ∧ view ∈ views
    ∧ EventRead.title view = "Library day".
Proof.
  destruct (create_event_then_list outreach_day
              (MkWorld (seeded ["reset_db.py"] 739000) 0) outreach_day_ok)
    as (view & w' & views & Hrun & Hlist & Hin & _ & _ & _ & _ & _ & _ & _ & Ht & _).
  exists view, w', views. split_and!; assumption.
Defined.

Lemma create_event_rejects_witness :
  ∃ msg, create_event outreach_day (MkWorld club_db 0)
         = (Raise (Http 400 msg), MkWorld club_db 0).
Proof.
  apply (create_event_rejects outreach_day (MkWorld club_db 0)).
  intros (_ & _ & _ & [Hempty|[k Hk]]); [done|]. by vm_compute in Hk.
Defined.

Lemma update_event_in_place_witness :
  update_event 8 outreach_day (MkWorld club_db 0)
  = (Raise (Http 404 "Event not found"), MkWorld club_db 0)
  ∧ ∃ msg, update_event 7 outreach_day (MkWorld club_db 0)
           = (Raise (Http 400 msg), MkWorld club_db 0).
Proof.
  split.
  - by apply (update_event_in_place 8 outreach_day (MkWorld club_db 0)).
  - apply (update_event_in_place 7 outreach_day (MkWorld club_db 0)); [by eexists|].
    intros (_ & _ & _ & [Hempty|[k Hk]]); [done|]. by vm_compute in Hk.
Defined.

Lemma events_stay_well_formed_witness :
  events_well_formed
    (db (create_event outreach_day (MkWorld (seeded ["reset_db.py"] 739000) 0)).2).
Proof.
  eapply (events_stay_well_formed (seeded ["reset_db.py"] 739000)).
  - assert (events (seeded ["reset_db.py"] 739000) = ∅) as He by (by vm_compute).
    unfold events_well_formed. rewrite He. apply map_Forall_empty.
  - eapply rtc_once.
    apply (event_step_create outreach_day (MkWorld (seeded ["reset_db.py"] 739000) 0)
             (create_event outreach_day (MkWorld (seeded ["reset_db.py"] 739000) 0)).1).
    apply surjective_pairing.
Defined.
